(** * The forms list and forms dashboard of the patient forms app

    A shallow embedding of [forms-list.component.tsx] (the [FormsList]
    component) and [forms-dashboard.component.tsx] (the [FormsDashboard]
    component), together with the small part of their run-time environment
    the properties depend on: the order of a sort with a comparator, the
    [fuzzy] matcher, the trailing-edge [debounce] of lodash, the browser's
    [IntersectionObserver] objects and React's commit order (refs are
    detached and attached before passive effects run). *)

From Stdlib Require Import Ascii String Sorting.Sorted Sorting.Permutation.
From stdpp Require Import base list strings.

Set Default Proof Using "Type".
Local Open Scope string_scope.
Local Open Scope nat_scope.
Local Open Scope list_scope.

(** ** Data model ([../types]) *)

Module Types.

(** Modelled from the spec: the type declarations of [../types] are not
    among the sources.  A form summary has an identifier, a name, a
    display name that may be missing, a last-completed time that may be
    missing, and the encounters it belongs to (here by their uuid); these
    are the fields the two components read. *)
Record Form := mkForm {
  uuid : string;
  name : string;
  display : option string;
}.

Record CompletedFormInfo := mkInfo {
  form : Form;
  lastCompletedDate : option nat;
  associatedEncounters : list string;
}.

End Types.

(** JavaScript truthiness of a string: only the empty string is falsy. *)
Definition truthy (s : string) : bool :=
  match s with EmptyString => false | _ => true end.

(** Whether an optional value is there ([undefined] and [null] are not). *)
Definition defined {A} (o : option A) : bool :=
  match o with Some _ => true | None => false end.

(** A function value passed as a prop, known by its identity. *)
Definition Callback := nat.

(** ** [Array.prototype.sort] with a comparator

    The language requires the sort to be stable; with a consistent
    comparator its result is the one stable sorted arrangement, which
    insertion from the right computes.  The comparator's number is kept as
    its sign; a [NaN] counts as [+0]. *)

Module JS.

Section Sort.
Context {A : Type} (cmp : A -> A -> comparison).

Fixpoint insert (x : A) (l : list A) : list A :=
  match l with
  | [] => [x]
  | y :: l' =>
      match cmp x y with
      | Gt => y :: insert x l'
      | _ => x :: l
      end
  end.

Definition sort (l : list A) : list A := foldr insert [] l.

End Sort.

End JS.

(** ** The [fuzzy] package: [fuzzy.match] and [fuzzy.filter] *)

Module fuzzy.

(** A match score is a number; an exact match scores [Infinity]. *)
Inductive Score := Finite (n : nat) | Infinity.

(** Sign of [a - b]; [Infinity - Infinity] is [NaN], taken as zero. *)
Definition sub_sign (a b : Score) : comparison :=
  match a, b with
  | Finite x, Finite y => Nat.compare x y
  | Finite _, Infinity => Lt
  | Infinity, Finite _ => Gt
  | Infinity, Infinity => Eq
  end.

(** The comparator [(a, b) => key(b) - key(a)]. *)
Definition descending {A} (key : A -> Score) (a b : A) : comparison :=
  sub_sign (key b) (key a).

(** The order of scores as numbers. *)
Definition le (a b : Score) : Prop :=
  match a, b with
  | Finite x, Finite y => x <= y
  | _, Infinity => True
  | Infinity, Finite _ => False
  end.

#[global] Instance Score_eq_dec : EqDecision Score.
Proof. solve_decision. Defined.

Definition to_lower (c : ascii) : ascii :=
  let n := Ascii.nat_of_ascii c in
  if (65 <=? n) && (n <=? 90) then Ascii.ascii_of_nat (n + 32) else c.

Fixpoint toLowerCase (s : string) : string :=
  match s with
  | EmptyString => EmptyString
  | String c s' => String (to_lower c) (toLowerCase s')
  end.

(** The loop of [fuzzy.match] over the characters of the string: [pat] is
    what is left of the pattern, [curr] the running score of the current
    run of consecutive hits, [total] the sum so far. *)
Fixpoint match_loop (pat str : string) (curr total : nat) : option nat :=
  match str with
  | EmptyString =>
      match pat with EmptyString => Some total | _ => None end
  | String c str' =>
      match pat with
      | String p pat' =>
          if Ascii.eqb c p
          then let curr' := 1 + curr + curr in
               match_loop pat' str' curr' (total + curr')
          else match_loop pat str' 0 total
      | EmptyString => match_loop pat str' 0 total
      end
  end.

(** [fuzzy.match(pattern, str)] without [caseSensitive]: the score, or
    [None] for [null].  (Lower-casing is done on ASCII letters.) *)
Definition match_ (pattern str : string) : option Score :=
  let compareString := toLowerCase str in
  let pattern := toLowerCase pattern in
  match match_loop pattern compareString 0 0 with
  | Some total =>
      Some (if String.eqb compareString pattern then Infinity else Finite total)
  | None => None
  end.

Section Filter.
Context {A : Type}.
(** The matcher is a parameter of the development: what is proved about the
    filter holds for every scoring function, [match_] among them. *)
Context (matcher : string -> string -> option Score).

Record Result := mkResult {
  score : Score;
  index : nat;
  original : A;
}.

(** The [reduce] of [fuzzy.filter]: one result per matching element. *)
Fixpoint collect (pattern : string) (extract : A -> string)
    (idx : nat) (arr : list A) : list Result :=
  match arr with
  | [] => []
  | element :: arr' =>
      match matcher pattern (extract element) with
      | Some s => mkResult s idx element :: collect pattern extract (S idx) arr'
      | None => collect pattern extract (S idx) arr'
      end
  end.

(** [b.score - a.score], and on a tie (zero or [NaN]) [a.index - b.index]. *)
Definition compare_results (a b : Result) : comparison :=
  match sub_sign (score b) (score a) with
  | Eq => Nat.compare (index a) (index b)
  | c => c
  end.

Definition filter (pattern : string) (arr : list A) (extract : A -> string)
    : list Result :=
  match arr with
  | [] => []
  | _ => JS.sort compare_results (collect pattern extract 0 arr)
  end.

End Filter.

Arguments Result : clear implicits.
Arguments mkResult {A}.
Arguments score {A}.
Arguments index {A}.
Arguments original {A}.

End fuzzy.

(** ** lodash's [debounce(func, wait)] with its default options

    Only the trailing edge invokes [func]; without [maxWait] the time of
    the last invocation plays no part and is left out.  Time is counted in
    milliseconds; [timerId] holds the time at which the pending timer is
    due. *)

Module Lodash.

Record Debounced := mkDebounced {
  lastArgs : option string;
  lastCallTime : option nat;
  timerId : option nat;
}.

Definition debounce : Debounced := mkDebounced None None None.

Section Wait.
Context (wait : nat).

Definition shouldInvoke (time : nat) (d : Debounced) : bool :=
  match lastCallTime d with
  | None => true
  | Some t => wait <=? time - t
  end.

Definition remainingWait (time : nat) (d : Debounced) : nat :=
  match lastCallTime d with
  | None => wait
  | Some t => wait - (time - t)
  end.

(** [debounced(args)] at [time]. *)
Definition debounced (time : nat) (args : string) (d : Debounced) : Debounced :=
  let isInvoking := shouldInvoke time d in
  let d := mkDebounced (Some args) (Some time) (timerId d) in
  match timerId d with
  | None =>
      (* [leadingEdge] when invoking, the plain start of the timer when
         not: with [leading] false neither invokes [func] *)
      if isInvoking
      then mkDebounced (lastArgs d) (lastCallTime d) (Some (time + wait))
      else mkDebounced (lastArgs d) (lastCallTime d) (Some (time + wait))
  | Some _ => d
  end.

(** [trailingEdge]: the timer is gone; [func] is invoked with the last
    arguments if there are any. *)
Definition trailingEdge (d : Debounced) : Debounced * option string :=
  match lastArgs d with
  | Some args => (mkDebounced None (lastCallTime d) None, Some args)
  | None => (mkDebounced None (lastCallTime d) None, None)
  end.

(** [timerExpired] at [time]: invoke, or restart the timer for what is left
    of the wait since the last call. *)
Definition timerExpired (time : nat) (d : Debounced) : Debounced * option string :=
  if shouldInvoke time d then trailingEdge d
  else (mkDebounced (lastArgs d) (lastCallTime d)
          (Some (time + remainingWait time d)), None).

(** The clock has reached [time]: a timer that is due expires. *)
Definition tick (time : nat) (d : Debounced) : Debounced * option string :=
  match timerId d with
  | Some due => if due <=? time then timerExpired time d else (d, None)
  | None => (d, None)
  end.

(** A call made at time [since] with [term] waits for its timer. *)
Definition pendingSince (time : nat) (d : Debounced) (term : string)
    (since : nat) : Prop :=
  lastArgs d = Some term
  /\ lastCallTime d = Some since
  /\ exists due, timerId d = Some due
                 /\ since <= time /\ time < due /\ due <= since + wait.

(** A debounced function on its own clock: what happens to it, and the
    arguments [func] has been invoked with, oldest first. *)
Inductive Event := Submit (term : string) | Tick.

Record Timeline := mkTimeline {
  now : nat;
  handler : Debounced;
  invoked : list string;
}.

Definition step (t : Timeline) (e : Event) : Timeline :=
  match e with
  | Submit term => mkTimeline (now t) (debounced (now t) term (handler t)) (invoked t)
  | Tick =>
      let time := S (now t) in
      match tick time (handler t) with
      | (d, Some args) => mkTimeline time d (invoked t ++ [args])
      | (d, None) => mkTimeline time d (invoked t)
      end
  end.

Definition run (es : list Event) (t : Timeline) : Timeline := foldl step t es.

(** The timer is off and [func] has been invoked at most once in each
    [wait] milliseconds since [start]; or a call waits for the timer, and
    so it was when that call was made. *)
Definition paced (start : nat) (t : Timeline) : Prop :=
  (timerId (handler t) = None
   /\ start + wait * length (invoked t) <= now t)
  \/ (exists term since,
        pendingSince (now t) (handler t) term since
        /\ start + wait * length (invoked t) <= since).

End Wait.

(** Submissions one after the other: the first at once, each later one
    [gap] milliseconds after the one before it. *)
Definition submissions (first : string) (rest : list (nat * string)) : list Event :=
  Submit first :: flat_map (fun '(gap, term) => repeat Tick gap ++ [Submit term]) rest.

Definition final (first : string) (rest : list (nat * string)) : string :=
  List.last (map snd rest) first.

End Lodash.

(** ** [FormsList] ([forms-list.component.tsx]) *)

Module FormsList.
Import Types.

Record Props := mkProps {
  completedForms : option (list CompletedFormInfo);
  error : bool;                       (* truthiness of [error] *)
  sectionName : string;
  onSearch : option Callback;
  isValidating : bool;
  loadMore : option Callback;
  hasMore : bool;
  isLoading : bool;
  totalLoaded : nat;
  enableInfiniteScrolling : bool;
  isSearching : bool;
}.

(** What the component does to the world outside it: the calls it makes,
    and the exceptions it lets escape. *)
Inductive Call :=
  | CallLoadMore (f : Callback)
  | CallOnSearch (f : Callback) (term : string)
  | CallSetSearchTerm (term : string)
  | UncaughtTypeError.

(** The function handed to [debounce]. *)
Definition handleSearch_body (onSearch : option Callback) (searchTerm : string)
    : list Call :=
  CallSetSearchTerm searchTerm ::
  match onSearch with
  | Some f => [CallOnSearch f searchTerm]
  | None => []
  end.

Definition handleSearch_wait : nat := 500.

Section WithMatcher.
Context (matcher : string -> string -> option fuzzy.Score).

(** [formInfo.form.display ?? formInfo.form.name] *)
Definition extract (formInfo : CompletedFormInfo) : string :=
  match display (form formInfo) with
  | Some d => d
  | None => name (form formInfo)
  end.

(** [(r1, r2) => r2.score - r1.score] *)
Definition byScore (r1 r2 : fuzzy.Result CompletedFormInfo) : comparison :=
  fuzzy.sub_sign (fuzzy.score r2) (fuzzy.score r1).

Definition filteredForms (onSearch : option Callback) (searchTerm : string)
    (completedForms : option (list CompletedFormInfo))
    : option (list CompletedFormInfo) :=
  if defined onSearch && truthy searchTerm then completedForms
  else if negb (truthy searchTerm) then completedForms
  else
    match completedForms with
    | None => Some []
    | Some [] => Some []
    | Some forms =>
        Some (map fuzzy.original
                (JS.sort byScore (fuzzy.filter matcher searchTerm forms extract)))
    end.

(** The items the matcher accepts for a term, and the score it gives
    them. *)
Definition matches (term : string) (formInfo : CompletedFormInfo) : bool :=
  defined (matcher term (extract formInfo)).

Definition scoreOf (term : string) (formInfo : CompletedFormInfo) : fuzzy.Score :=
  match matcher term (extract formInfo) with
  | Some s => s
  | None => fuzzy.Finite 0
  end.

(** [(a, b) => score(b) - score(a)] on the items themselves. *)
Definition byItem (term : string) (a b : CompletedFormInfo) : comparison :=
  fuzzy.sub_sign (scoreOf term b) (scoreOf term a).

Record Row := mkRow {
  id : string;
  lastCompleted : option nat;
  formName : string;
  formUuid : string;
  encounterUuid : option string;
}.

Definition tableRows (filtered : option (list CompletedFormInfo)) : list Row :=
  match filtered with
  | Some l =>
      map (fun formData =>
             mkRow (uuid (form formData)) (lastCompletedDate formData)
                   (extract formData) (uuid (form formData))
                   (head (associatedEncounters formData))) l
  | None => []
  end.

(** Which of its return statements a render takes; for the table, whether
    the load-more trigger [<div>] is part of it. *)
Inductive View :=
  | Skeleton
  | SearchingMessage
  | EmptyFragment
  | NoSearchResults
  | Table (trigger : bool).

Definition noForms (p : Props) : bool :=
  match completedForms p with
  | None | Some [] => true
  | Some _ => false
  end.

Definition view (p : Props) (searchTerm : string) : View :=
  let rows := tableRows (filteredForms (onSearch p) searchTerm (completedForms p)) in
  if negb (defined (completedForms p)) && negb (error p)
     && (isLoading p || isValidating p) then Skeleton
  else if isSearching p || (truthy searchTerm && (isLoading p || isValidating p))
  then SearchingMessage
  else if noForms p && negb (isLoading p) && negb (isValidating p)
  then EmptyFragment
  else if truthy searchTerm && (length rows =? 0) && negb (isLoading p)
          && negb (isValidating p) && negb (isSearching p)
  then NoSearchResults
  else Table (enableInfiniteScrolling p && hasMore p).

Definition hasTrigger (v : View) : bool :=
  match v with Table b => b | _ => false end.

Definition hasTable (v : View) : bool :=
  match v with Table _ => true | _ => false end.

(** *** The intersection observers

    An observer keeps the values its callback closed over when the effect
    built it, and the elements it observes. *)
Record Observer := mkObserver {
  closure_isValidating : bool;
  closure_loadMore : Callback;
  targets : list nat;
}.

(** The callback given to [new IntersectionObserver]: [entries] holds the
    [isIntersecting] of each entry.  Reading [first.isIntersecting] of a
    missing first entry throws. *)
Definition callback (o : Observer) (entries : list bool) : list Call :=
  match entries with
  | [] => [UncaughtTypeError]
  | first :: _ =>
      if first && negb (closure_isValidating o)
      then [CallLoadMore (closure_loadMore o)]
      else []
  end.

(** The two refs, and the observer objects built so far (a ref holds the
    position of its observer among them). *)
Record Store := mkStore {
  observerRef : option nat;
  loadMoreRef : option nat;
  observers : list Observer;
}.

Definition observe (o node : nat) (s : Store) : Store :=
  mkStore (observerRef s) (loadMoreRef s)
    (alter (fun ob => mkObserver (closure_isValidating ob) (closure_loadMore ob)
                        (if bool_decide (node ∈ targets ob) then targets ob
                         else targets ob ++ [node])) o (observers s)).

Definition unobserve (o node : nat) (s : Store) : Store :=
  mkStore (observerRef s) (loadMoreRef s)
    (alter (fun ob => mkObserver (closure_isValidating ob) (closure_loadMore ob)
                        (List.filter (fun n => negb (n =? node)) (targets ob)))
       o (observers s)).

Definition disconnect (o : nat) (s : Store) : Store :=
  mkStore (observerRef s) (loadMoreRef s)
    (alter (fun ob => mkObserver (closure_isValidating ob) (closure_loadMore ob) [])
       o (observers s)).

(** The guard at the top of the observer effect, negated. *)
Definition wantsObserver (p : Props) : option Callback :=
  if enableInfiniteScrolling p && hasMore p then loadMore p else None.

(** The body of the observer effect.  It returns its cleanup function
    exactly when the guard lets it through, that is when [wantsObserver]
    is there. *)
Definition effect (p : Props) (s : Store) : Store :=
  match wantsObserver p with
  | None => s
  | Some f =>
      let observer := length (observers s) in
      let s := mkStore (Some observer) (loadMoreRef s)
                 (observers s ++ [mkObserver (isValidating p) f []]) in
      match loadMoreRef s with
      | Some node => observe observer node s
      | None => s
      end
  end.

(** The cleanup function the effect returns. *)
Definition cleanup (s : Store) : Store :=
  match observerRef s with
  | Some o => disconnect o s
  | None => s
  end.

(** The callback ref [setLoadMoreRef]. *)
Definition setLoadMoreRef (node : option nat) (s : Store) : Store :=
  let s :=
    match loadMoreRef s with
    | Some previous =>
        match observerRef s with
        | Some o => unobserve o previous s
        | None => s
        end
    | None => s
    end in
  let s := mkStore (observerRef s) node (observers s) in
  match node, observerRef s with
  | Some n, Some o => observe o n s
  | _, _ => s
  end.

(** The dependencies of the observer effect. *)
Definition deps (p : Props) : bool * option Callback * bool * bool :=
  (enableInfiniteScrolling p, loadMore p, hasMore p, isValidating p).

(** One pass of the passive effects: on mount ([previous] is [None]) the
    effect runs; on an update it runs again only if a dependency changed,
    after the cleanup function of its last run, if that run returned one. *)
Definition runEffect (previous : option Props) (p : Props) (s : Store) : Store :=
  match previous with
  | None => effect p s
  | Some q =>
      if bool_decide (deps q = deps p) then s
      else effect p (if defined (wantsObserver q) then cleanup s else s)
  end.

(** *** A mounted component

    The hook state of one [FormsList], the trigger element it has in the
    document, the clock, and the record of its calls. *)
Record Instance := mkInstance {
  props : Props;
  searchTerm : string;
  store : Store;
  sentinel : option nat;
  nextElement : nat;
  handleSearch : Lodash.Debounced;
  retired : list (option Callback * Lodash.Debounced);
  now : nat;
  mounted : bool;
  calls : list Call;
}.

Definition withStore (s : Store) (i : Instance) : Instance :=
  mkInstance (props i) (searchTerm i) s (sentinel i) (nextElement i)
    (handleSearch i) (retired i) (now i) (mounted i) (calls i).

Definition withCalls (c : list Call) (i : Instance) : Instance :=
  mkInstance (props i) (searchTerm i) (store i) (sentinel i) (nextElement i)
    (handleSearch i) (retired i) (now i) (mounted i) (calls i ++ c).

(** The commit of a render, as far as refs go.  A trigger that left the
    output has its ref called with [null]; a trigger that entered it has
    the ref called with the new element.  A trigger that stays keeps its
    element, and its ref (a [useCallback] without dependencies) is not
    called again, unless the heading of a named section appeared or went
    and the table was built anew ([rebuilt]). *)
Definition detachTrigger (i : Instance) : Instance :=
  mkInstance (props i) (searchTerm i) (setLoadMoreRef None (store i)) None
    (nextElement i) (handleSearch i) (retired i) (now i) (mounted i) (calls i).

Definition attachTrigger (i : Instance) : Instance :=
  let node := nextElement i in
  mkInstance (props i) (searchTerm i) (setLoadMoreRef (Some node) (store i))
    (Some node) (S node) (handleSearch i) (retired i) (now i) (mounted i)
    (calls i).

Definition commitRefs (rebuilt trigger : bool) (i : Instance) : Instance :=
  match sentinel i, trigger with
  | Some _, false => detachTrigger i
  | None, true => attachTrigger i
  | Some _, true => if rebuilt then attachTrigger (detachTrigger i) else i
  | None, false => i
  end.

(** Whether the list is rendered without a heading. *)
Definition plain (p : Props) : bool := String.eqb (sectionName p) "forms".

Definition mount (p : Props) : Instance :=
  let i := mkInstance p "" (mkStore None None []) None 0 Lodash.debounce [] 0
             true [] in
  let i := commitRefs false (hasTrigger (view p "")) i in
  withStore (runEffect None p (store i)) i.

(** A render with props [p] and search term [term] of a mounted component:
    [useMemo] keeps the debounced function unless [onSearch] changed (the
    one it replaces keeps its timer); then the commit, then the effect. *)
Definition render (p : Props) (term : string) (i : Instance) : Instance :=
  let q := props i in
  let keep := bool_decide (onSearch q = onSearch p) in
  let i := mkInstance p term (store i) (sentinel i) (nextElement i)
             (if keep then handleSearch i else Lodash.debounce)
             (if keep then retired i else retired i ++ [(onSearch q, handleSearch i)])
             (now i) (mounted i) (calls i) in
  let i := commitRefs (negb (Bool.eqb (plain q) (plain p)))
             (hasTrigger (view p term)) i in
  withStore (runEffect (Some q) p (store i)) i.

(** Unmounting: the ref of the trigger is called with [null], and the
    cleanup function of the effect runs if its last run returned one.
    Nothing is done about the debounced functions. *)
Definition unmount (i : Instance) : Instance :=
  let s := match sentinel i with
           | Some _ => setLoadMoreRef None (store i)
           | None => store i
           end in
  let s := if defined (wantsObserver (props i)) then cleanup s else s in
  mkInstance (props i) (searchTerm i) s None (nextElement i)
    (handleSearch i) (retired i) (now i) false (calls i).

(** The browser reports the visibility of the trigger in the document to
    every observer that observes it. *)
Definition notify (node : nat) (entries : list bool) (s : Store) : list Call :=
  flat_map (fun ob => if bool_decide (node ∈ targets ob)
                      then callback ob entries else [])
    (observers s).

Definition intersect (entries : list bool) (i : Instance) : Instance :=
  match sentinel i with
  | Some node => withCalls (notify node entries (store i)) i
  | None => i
  end.

(** Modelled from the spec: the table ([forms-table.component]) is not
    among the sources.  On every change of the search input it submits the
    term, that is, it calls the [handleSearch] prop the list gave it,
    [onSearch ? onSearch : handleSearch]. *)
Definition typeSearch (term : string) (i : Instance) : Instance :=
  if mounted i && hasTable (view (props i) (searchTerm i)) then
    match onSearch (props i) with
    | Some f => withCalls [CallOnSearch f term] i
    | None =>
        mkInstance (props i) (searchTerm i) (store i) (sentinel i)
          (nextElement i)
          (Lodash.debounced handleSearch_wait (now i) term (handleSearch i))
          (retired i) (now i) (mounted i) (calls i)
    end
  else i.

(** What an expired timer of a debounced function does. *)
Definition fire (f : option Callback) (args : option string) : list Call :=
  match args with
  | Some term => handleSearch_body f term
  | None => []
  end.

(** One millisecond passes.  Timers that are due expire, those of replaced
    debounced functions first; a state update of a mounted component makes
    it render again, on an unmounted one it is dropped. *)
Definition tick (i : Instance) : Instance :=
  let time := S (now i) in
  let old := map (fun '(f, d) => (f, Lodash.tick handleSearch_wait time d))
               (retired i) in
  let cur := Lodash.tick handleSearch_wait time (handleSearch i) in
  let made := flat_map (fun '(f, (_, args)) => fire f args) old
              ++ fire (onSearch (props i)) (snd cur) in
  let term := match snd cur with
              | Some t => Some t
              | None => last (omap (fun '(_, (_, args)) => args) old)
              end in
  let i := mkInstance (props i) (searchTerm i) (store i) (sentinel i)
             (nextElement i) (fst cur) (map (fun '(f, (d, _)) => (f, d)) old)
             time (mounted i) (calls i ++ made) in
  match term with
  | Some t => if mounted i then render (props i) t i else i
  | None => i
  end.

Inductive Event :=
  | Render (p : Props)
  | Intersect (entries : list bool)
  | TypeSearch (term : string)
  | Tick
  | Unmount.

Definition step (i : Instance) (e : Event) : Instance :=
  match e with
  | Render p => if mounted i then render p (searchTerm i) i else i
  | Intersect entries => intersect entries i
  | TypeSearch term => typeSearch term i
  | Tick => tick i
  | Unmount => if mounted i then unmount i else i
  end.

Definition run (es : list Event) (i : Instance) : Instance := foldl step i es.

(** Terms typed into the search box one after the other: the first at
    once, each later one [gap] milliseconds after the one before it. *)
Definition typing (first : string) (rest : list (nat * string)) : list Event :=
  TypeSearch first
  :: flat_map (fun '(gap, term) => repeat Tick gap ++ [TypeSearch term]) rest.

(** No replaced debounced function has a timer left. *)
Definition quietRetired (i : Instance) : Prop :=
  Forall (fun '(_, d) => Lodash.timerId d = None) (retired i).


(** Every debounced function that holds a term was built without
    [onSearch]: the table is given the debounced function only then. *)
Definition localTimers (i : Instance) : Prop :=
  (Lodash.lastArgs (handleSearch i) <> None -> onSearch (props i) = None)
  /\ Forall (fun '(f, d) => Lodash.lastArgs d <> None -> f = None) (retired i).

(** *** The state the effect means to keep

    Only the observer in [observerRef] observes anything, and its callback
    closed over the [isValidating] of the props [p]. *)
Definition soleObserver (p : Props) (s : Store) : Prop :=
  exists o ob,
    observerRef s = Some o /\ observers s !! o = Some ob
    /\ closure_isValidating ob = isValidating p
    /\ forall o' ob', observers s !! o' = Some ob' -> o' <> o -> targets ob' = [].

(** No observer observes anything. *)
Definition inert (s : Store) : Prop :=
  forall o ob, observers s !! o = Some ob -> targets ob = [].

(** All but the renders that fail the guard of the observer effect. *)
Definition guarded (e : Event) : Prop :=
  match e with
  | Render p => wantsObserver p <> None
  | _ => True
  end.

Definition current (i : Instance) : Prop :=
  if mounted i
  then wantsObserver (props i) <> None /\ soleObserver (props i) (store i)
  else sentinel i = None.

(** The observer in [observerRef] is the one the effect built for the
    props [p]: it closed over their [loadMore] and [isValidating], it
    observes the element [node] of the trigger, if there is one, and
    nothing else; [loadMoreRef] holds that element; no other observer
    observes anything. *)
Definition tracks (p : Props) (node : option nat) (s : Store) : Prop :=
  loadMoreRef s = node
  /\ exists f o ob,
       wantsObserver p = Some f
       /\ observerRef s = Some o /\ observers s !! o = Some ob
       /\ closure_loadMore ob = f
       /\ closure_isValidating ob = isValidating p
       /\ targets ob = match node with Some n => [n] | None => [] end
       /\ forall o' ob',
            observers s !! o' = Some ob' -> o' <> o -> targets ob' = [].

Definition tracking (i : Instance) : Prop :=
  if mounted i then tracks (props i) (sentinel i) (store i)
  else sentinel i = None.

(** All but the renders that pass the guard of the observer effect. *)
Definition unguarded (e : Event) : Prop :=
  match e with
  | Render p => wantsObserver p = None
  | _ => True
  end.

(** All but the renders without [onSearch]. *)
Definition remote (e : Event) : Prop :=
  match e with
  | Render p => onSearch p <> None
  | _ => True
  end.

(** What can happen to a list while its parent leaves it alone. *)
Definition untouched (e : Event) : Prop :=
  match e with
  | Render _ | Unmount => False
  | _ => True
  end.

End WithMatcher.

End FormsList.

(** ** [FormsDashboard] ([forms-dashboard.component.tsx]) *)

Module FormsDashboard.
Import Types.

(** Modelled from the spec: the configuration schema ([../config-schema])
    is not among the sources.  A section has a name and the matchers of
    its members, each the uuid or the name of a form; the dashboard reads
    them as [name] and [forms]. *)
Record FormSection := mkFormSection {
  name : string;
  forms : list string;
}.

Record ConfigObject := mkConfig {
  formSections : option (list FormSection);
  enableInfiniteScrolling : bool;
}.

(** What [useInfiniteForms] returns, and what the dashboard makes of the
    result of [useForms].  The hooks themselves are not among the sources:
    what they return is an input of the render. *)
Record FormsResult := mkFormsResult {
  data : option (list CompletedFormInfo);
  allForms : option (list CompletedFormInfo);
  error : bool;
  isValidating : bool;
  loadMore : option Callback;
  hasMore : bool;
  isLoading : bool;
  totalLoaded : nat;
}.

(** What [useForms] returns. *)
Record RegularResult := mkRegularResult {
  regular_data : option (list CompletedFormInfo);
  regular_allForms : option (list CompletedFormInfo);
  regular_error : bool;
  regular_isValidating : bool;
}.

(** All a render of the dashboard depends on. *)
Record Inputs := mkInputs {
  config : ConfigObject;
  enableInfiniteScrolling_prop : option bool;
  infiniteFormsResult : FormsResult;
  regularFormsResult : RegularResult;
  searchQuery : string;
  isSearching : bool;
}.

(** [enableInfiniteScrolling ?? config.enableInfiniteScrolling] *)
Definition useInfiniteScrolling (d : Inputs) : bool :=
  match enableInfiniteScrolling_prop d with
  | Some b => b
  | None => enableInfiniteScrolling (config d)
  end.

Definition result (d : Inputs) : FormsResult :=
  if truthy (searchQuery d) || useInfiniteScrolling d then infiniteFormsResult d
  else
    let r := regularFormsResult d in
    mkFormsResult (regular_data r) (regular_allForms r) (regular_error r)
      (regular_isValidating r) None false false
      (match regular_allForms r with Some l => length l | None => 0 end).

(** The state updates of the dashboard's debounced [handleSearch]. *)
Inductive Update :=
  | SetIsSearching (b : bool)
  | SetSearchQuery (query : string).

Definition handleSearch_body (query : string) : list Update :=
  [SetIsSearching true; SetSearchQuery query].

Definition handleSearch_wait : nat := 500.

(** The identity of the memoised [handleSearch], as lists get it. *)
Definition handleSearch : Callback := 0.

Record Section_ := mkSection {
  section_name : string;
  section_forms : list string;
  availableForms : option (list CompletedFormInfo);
}.

(** [formInfo.form.uuid === formConfig || formInfo.form.name === formConfig]
    for some [formConfig] of the section. *)
Definition accepts (formSection : FormSection) (formInfo : CompletedFormInfo) : bool :=
  existsb (fun formConfig =>
             String.eqb (uuid (form formInfo)) formConfig
             || String.eqb (Types.name (form formInfo)) formConfig)
    (forms formSection).

Definition sections (config : ConfigObject)
    (forms_ : option (list CompletedFormInfo)) : option (list Section_) :=
  match formSections config with
  | None => None
  | Some l =>
      Some (map (fun formSection =>
                   mkSection (name formSection) (forms formSection)
                     (match forms_ with
                      | Some fs => Some (List.filter (accepts formSection) fs)
                      | None => None
                      end)) l)
  end.

(** What a render returns: one of the two early screens, or the lists, each
    given by the props it gets. *)
Inductive Rendered :=
  | SearchingSkeleton
  | EmptyState
  | Lists (lists : list FormsList.Props).

Inductive Outcome :=
  | Returned (r : Rendered)
  | TypeError.

Definition listProps (r : FormsResult) (d : Inputs) (sectionName : string)
    (completedForms : option (list CompletedFormInfo)) : FormsList.Props :=
  FormsList.mkProps completedForms (error r) sectionName (Some handleSearch)
    (isValidating r) (loadMore r) (hasMore r) (isLoading r) (totalLoaded r)
    (useInfiniteScrolling d) (isSearching d).

(** [forms?.length === 0] *)
Definition lengthIsZero {A} (l : option (list A)) : bool :=
  match l with Some [] => true | _ => false end.

Definition render (d : Inputs) : Outcome :=
  let r := result d in
  if isSearching d then Returned SearchingSkeleton
  else if lengthIsZero (data r) && negb (isSearching d) && negb (isLoading r)
          && negb (isValidating r)
  then Returned EmptyState
  else
    match sections (config d) (data r) with
    | None => TypeError
    | Some [] => Returned (Lists [listProps r d "forms" (data r)])
    | Some ss =>
        Returned (Lists (map (fun section =>
                                listProps r d (section_name section)
                                  (availableForms section)) ss))
    end.

(** *** The state of the dashboard

    [searchQuery] and [isSearching] are state, set by [setSearchQuery] and
    [setIsSearching]; the rest of what a render depends on comes from the
    props, the configuration and the two fetches. *)
Definition setState (d : Inputs) (u : Update) : Inputs :=
  match u with
  | SetIsSearching b =>
      mkInputs (config d) (enableInfiniteScrolling_prop d)
        (infiniteFormsResult d) (regularFormsResult d) (searchQuery d) b
  | SetSearchQuery query =>
      mkInputs (config d) (enableInfiniteScrolling_prop d)
        (infiniteFormsResult d) (regularFormsResult d) query (isSearching d)
  end.

(** The effect that resets [isSearching] when data is fetched:
    [if (isSearching && !isValidating && !isLoading) setIsSearching(false)],
    with what the render it follows saw. *)
Definition resetSearching (d : Inputs) : list Update :=
  let r := result d in
  if isSearching d && negb (isValidating r) && negb (isLoading r)
  then [SetIsSearching false]
  else [].

(** A render and its effect: the update of the effect, if it makes one,
    gives the next render, whose own effect finds nothing to do. *)
Definition settle (d : Inputs) : Inputs := foldl setState d (resetSearching d).

(** What makes the dashboard render again: the fetches return something
    new, or the debounced [handleSearch] runs, and the render with the new
    query gets what the fetches return for it. *)
Inductive Change :=
  | Fetched (infinite : FormsResult) (regular : RegularResult)
  | Searched (query : string) (infinite : FormsResult) (regular : RegularResult).

Definition fetched (infinite : FormsResult) (regular : RegularResult)
    (d : Inputs) : Inputs :=
  mkInputs (config d) (enableInfiniteScrolling_prop d) infinite regular
    (searchQuery d) (isSearching d).

Definition react (d : Inputs) (c : Change) : Inputs :=
  match c with
  | Fetched infinite regular => settle (fetched infinite regular d)
  | Searched query infinite regular =>
      settle (fetched infinite regular (foldl setState d (handleSearch_body query)))
  end.

(** [isValidating || isLoading] of the fetch in use. *)
Definition busy (d : Inputs) : bool :=
  isValidating (result d) || isLoading (result d).

(** *** A list of the dashboard and its search box

    The lists get the debounced [handleSearch] of the dashboard as their
    [onSearch]: a call of [onSearch] by a list is a call of that debounced
    function, at the time the list makes it.  A [Screen] is a list on
    screen together with the debounced function of the dashboard, on one
    clock, and the queries the function given to [debounce] has been
    invoked with. *)
Record Screen := mkScreen {
  shown : FormsList.Instance;
  search : Lodash.Timeline;
}.

(** The calls of [handleSearch] among the calls a list has made. *)
Definition submitted (made : list FormsList.Call) : list Lodash.Event :=
  flat_map (fun c =>
              match c with
              | FormsList.CallOnSearch f query =>
                  if f =? handleSearch then [Lodash.Submit query] else []
              | _ => []
              end) made.

(** Something happens to the list: the timer of the debounced function
    sees the millisecond pass, if one does, and the debounced function is
    called as often as the list then called [handleSearch]. *)
Definition happen (matcher : string -> string -> option fuzzy.Score)
    (s : Screen) (e : FormsList.Event) : Screen :=
  let i := FormsList.step matcher (shown s) e in
  let made := drop (length (FormsList.calls (shown s))) (FormsList.calls i) in
  let passed := match e with FormsList.Tick => [Lodash.Tick] | _ => [] end in
  mkScreen i (Lodash.run handleSearch_wait (passed ++ submitted made) (search s)).

(** The state updates the dashboard has made through [handleSearch]. *)
Definition updates (s : Screen) : list Update :=
  flat_map handleSearch_body (Lodash.invoked (search s)).

End FormsDashboard.

(** ** Sample inputs *)

Module Samples.
Import Types.

Definition vitals : CompletedFormInfo :=
  mkInfo (mkForm "uuid-vitals" "Vitals" None) None [].
Definition visitNote : CompletedFormInfo :=
  mkInfo (mkForm "uuid-note" "note" (Some "Visit Note")) (Some 3) ["enc-1"].
Definition covid : CompletedFormInfo :=
  mkInfo (mkForm "uuid-covid" "Covid 19" None) None [].
Definition vit : CompletedFormInfo :=
  mkInfo (mkForm "uuid-vit" "VIT" None) None [].
Definition vitaminA : CompletedFormInfo :=
  mkInfo (mkForm "uuid-vitamin" "Vitamin A" None) None [].

Definition loadNextPage : Callback := 7.

(** A list that scrolls: infinite scrolling on, a load-more callback, more
    to load, nothing in flight, no [onSearch]. *)
Definition scrolling : FormsList.Props :=
  FormsList.mkProps (Some [vitals; visitNote]) false "forms" None false
    (Some loadNextPage) true false 2 true false.

Definition withHasMore (b : bool) (p : FormsList.Props) : FormsList.Props :=
  FormsList.mkProps (FormsList.completedForms p) (FormsList.error p)
    (FormsList.sectionName p) (FormsList.onSearch p) (FormsList.isValidating p)
    (FormsList.loadMore p) b (FormsList.isLoading p) (FormsList.totalLoaded p)
    (FormsList.enableInfiniteScrolling p) (FormsList.isSearching p).

Definition withIsValidating (b : bool) (p : FormsList.Props) : FormsList.Props :=
  FormsList.mkProps (FormsList.completedForms p) (FormsList.error p)
    (FormsList.sectionName p) (FormsList.onSearch p) b
    (FormsList.loadMore p) (FormsList.hasMore p) (FormsList.isLoading p)
    (FormsList.totalLoaded p) (FormsList.enableInfiniteScrolling p)
    (FormsList.isSearching p).

Definition withLoadMore (f : option Callback) (p : FormsList.Props)
    : FormsList.Props :=
  FormsList.mkProps (FormsList.completedForms p) (FormsList.error p)
    (FormsList.sectionName p) (FormsList.onSearch p) (FormsList.isValidating p)
    f (FormsList.hasMore p) (FormsList.isLoading p) (FormsList.totalLoaded p)
    (FormsList.enableInfiniteScrolling p) (FormsList.isSearching p).

Definition withIsSearching (b : bool) (p : FormsList.Props) : FormsList.Props :=
  FormsList.mkProps (FormsList.completedForms p) (FormsList.error p)
    (FormsList.sectionName p) (FormsList.onSearch p) (FormsList.isValidating p)
    (FormsList.loadMore p) (FormsList.hasMore p) (FormsList.isLoading p)
    (FormsList.totalLoaded p) (FormsList.enableInfiniteScrolling p) b.

(** The dashboard with nothing on the server and nothing in flight, as
    the tests of the dashboard mock it. *)
Definition nothingFetched : FormsDashboard.FormsResult :=
  FormsDashboard.mkFormsResult (Some []) (Some []) false false
    (Some loadNextPage) false false 0.

Definition idle (sections : option (list FormsDashboard.FormSection))
    (forms : list CompletedFormInfo) : FormsDashboard.Inputs :=
  FormsDashboard.mkInputs (FormsDashboard.mkConfig sections false) None
    nothingFetched
    (FormsDashboard.mkRegularResult (Some forms) (Some forms) false false)
    "" false.

Definition twoSections : list FormsDashboard.FormSection :=
  [FormsDashboard.mkFormSection "S1" ["uuid-vitals"];
   FormsDashboard.mkFormSection "S2" ["note"; "Vitals"]].

(** The one list the dashboard renders for two forms fetched, no
    sections and nothing in flight. *)
Definition dashboardList : FormsList.Props :=
  FormsDashboard.listProps
    (FormsDashboard.result (idle (Some []) [vitals; visitNote]))
    (idle (Some []) [vitals; visitNote]) "forms" (Some [vitals; visitNote]).

(** A list that searches through its parent: [onSearch] given, no
    infinite scrolling. *)
Definition remoteList : FormsList.Props :=
  FormsList.mkProps (Some [vitals; visitNote]) false "forms" (Some 0) false
    None false false 2 false false.

(** A page of a search with more to load. *)
Definition firstPage : FormsDashboard.FormsResult :=
  FormsDashboard.mkFormsResult (Some [vitals; vit]) (Some [vitals; vit]) false
    false (Some loadNextPage) true false 2.

(** The dashboard with infinite scrolling off and a search query set. *)
Definition searchedWithoutScrolling : FormsDashboard.Inputs :=
  FormsDashboard.mkInputs (FormsDashboard.mkConfig (Some []) false) None
    firstPage
    (FormsDashboard.mkRegularResult (Some [covid]) (Some [covid]) false false)
    "vit" false.

End Samples.

(** * Properties *)

Lemma truthy_false s : truthy s = false <-> s = "".
Proof. destruct s; simpl; split; congruence. Qed.

Lemma truthy_true s : truthy s = true <-> s <> "".
Proof. destruct s; simpl; split; congruence. Qed.

(** ** Sorting with a comparator *)

Section SortFacts.
Context {A : Type} (cmp : A -> A -> comparison).

Lemma insert_Permutation x l : Permutation (JS.insert cmp x l) (x :: l).
Proof.
  induction l as [|y l IH]; simpl; [done|].
  destruct (cmp x y); try done.
  rewrite IH. apply perm_swap.
Qed.

Lemma sort_Permutation l : Permutation (JS.sort cmp l) l.
Proof.
  induction l as [|x l IH]; simpl; [done|].
  rewrite insert_Permutation. by constructor.
Qed.

Lemma sort_In x l : In x (JS.sort cmp l) <-> In x l.
Proof.
  split; apply Permutation_in;
    [apply sort_Permutation | symmetry; apply sort_Permutation].
Qed.

(** A list whose neighbours are in order is left as it is. *)
Lemma insert_head x l :
  HdRel (fun a b => cmp a b <> Gt) x l -> JS.insert cmp x l = x :: l.
Proof.
  destruct 1 as [|y l H]; simpl; [done|].
  by destruct (cmp x y).
Qed.

Lemma sort_Sorted l :
  Sorted (fun a b => cmp a b <> Gt) l -> JS.sort cmp l = l.
Proof.
  induction 1 as [|x l _ IH Hd]; simpl; [done|].
  rewrite IH. by apply insert_head.
Qed.

(** Stability: the elements a test selects keep their order, provided the
    sort never moves an element that passes the test across another one
    that does (two elements that both pass compare as equal or in order). *)
Lemma insert_filter (P : A -> bool) x l :
  (forall y, In y l -> P x = true -> P y = true -> cmp x y <> Gt) ->
  List.filter P (JS.insert cmp x l) = List.filter P (x :: l).
Proof.
  induction l as [|y l IH]; intros Hc; simpl; [done|].
  destruct (cmp x y) eqn:E; simpl; try done.
  rewrite IH by (intros z Hz; apply Hc; by right). simpl.
  destruct (P x) eqn:Px, (P y) eqn:Py; try done.
  exfalso. apply (Hc y); auto. by left.
Qed.

Lemma sort_filter (P : A -> bool) l :
  (forall x y, P x = true -> P y = true -> cmp x y <> Gt) ->
  List.filter P (JS.sort cmp l) = List.filter P l.
Proof.
  intros Hc. induction l as [|x l IH]; simpl; [done|].
  rewrite insert_filter by (intros; by apply Hc). simpl. by rewrite IH.
Qed.

End SortFacts.

Lemma insert_ext {A} (c1 c2 : A -> A -> comparison) x l :
  (forall y, In y l -> (c1 x y = Gt <-> c2 x y = Gt)) ->
  JS.insert c1 x l = JS.insert c2 x l.
Proof.
  induction l as [|y l IH]; intros H; simpl; [done|].
  assert (c1 x y = Gt <-> c2 x y = Gt) as Hy by (apply H; by left).
  destruct (c1 x y) eqn:E1, (c2 x y) eqn:E2; try done;
    try (by apply Hy in E1 || (destruct Hy as [_ Hy]; by specialize (Hy eq_refl)));
    try (destruct Hy as [Hy _]; by specialize (Hy eq_refl)).
  f_equal. apply IH. intros z Hz. apply H. by right.
Qed.

Lemma map_insert {A B} (f : A -> B) (c1 : A -> A -> comparison)
    (c2 : B -> B -> comparison) x l :
  (forall y, In y l -> c1 x y = c2 (f x) (f y)) ->
  map f (JS.insert c1 x l) = JS.insert c2 (f x) (map f l).
Proof.
  induction l as [|y l IH]; intros H; simpl; [done|].
  rewrite <- (H y) by (by left).
  destruct (c1 x y); simpl; try done.
  f_equal. apply IH. intros z Hz. apply H. by right.
Qed.

Lemma map_sort {A B} (f : A -> B) (c1 : A -> A -> comparison)
    (c2 : B -> B -> comparison) l :
  (forall x y, In x l -> In y l -> c1 x y = c2 (f x) (f y)) ->
  map f (JS.sort c1 l) = JS.sort c2 (map f l).
Proof.
  induction l as [|x l IH]; intros H; simpl; [done|].
  rewrite (map_insert f c1 c2).
  - f_equal. apply IH. intros; apply H; by right.
  - intros y Hy. apply H; [by left|]. right. by apply sort_In in Hy.
Qed.

(** ** The order of scores *)

Lemma sub_sign_not_Gt a b : fuzzy.sub_sign a b <> Gt <-> fuzzy.le a b.
Proof.
  destruct a as [x|], b as [y|]; simpl; try (split; (done || tauto)).
  rewrite Nat.compare_gt_iff. lia.
Qed.

Lemma sub_sign_Gt a b : fuzzy.sub_sign a b = Gt -> fuzzy.le b a.
Proof.
  destruct a as [x|], b as [y|]; simpl; try done.
  rewrite Nat.compare_gt_iff. lia.
Qed.

Lemma sub_sign_refl a : fuzzy.sub_sign a a = Eq.
Proof. destruct a; simpl; [apply Nat.compare_refl | done]. Qed.

Lemma le_trans a b c : fuzzy.le a b -> fuzzy.le b c -> fuzzy.le a c.
Proof. destruct a, b, c; simpl; try done. lia. Qed.

Section KeySort.
Context {A : Type} (key : A -> fuzzy.Score).

Lemma descending_not_Gt a b :
  fuzzy.descending key a b <> Gt <-> fuzzy.le (key b) (key a).
Proof using Type. apply sub_sign_not_Gt. Qed.

Lemma insert_desc x l :
  StronglySorted (fun a b => fuzzy.le (key b) (key a)) l ->
  StronglySorted (fun a b => fuzzy.le (key b) (key a))
    (JS.insert (fuzzy.descending key) x l).
Proof using Type.
  induction 1 as [|y l Hs IH Hy]; simpl.
  - repeat constructor.
  - destruct (fuzzy.descending key x y) eqn:E.
    + constructor; [by constructor|]. constructor.
      * apply descending_not_Gt. congruence.
      * eapply Forall_impl; [exact Hy|]. intros z Hz. simpl in *.
        eapply le_trans; [exact Hz|]. apply descending_not_Gt. congruence.
    + constructor; [by constructor|]. constructor.
      * apply descending_not_Gt. congruence.
      * eapply Forall_impl; [exact Hy|]. intros z Hz. simpl in *.
        eapply le_trans; [exact Hz|]. apply descending_not_Gt. congruence.
    + constructor; [exact IH|].
      rewrite (insert_Permutation (fuzzy.descending key) x l).
      constructor; [|exact Hy]. by apply sub_sign_Gt.
Qed.

Lemma sort_desc l :
  StronglySorted (fun a b => fuzzy.le (key b) (key a))
    (JS.sort (fuzzy.descending key) l).
Proof using Type.
  induction l as [|x l IH]; simpl; [constructor|]. by apply insert_desc.
Qed.

Lemma sort_sort l :
  JS.sort (fuzzy.descending key) (JS.sort (fuzzy.descending key) l)
  = JS.sort (fuzzy.descending key) l.
Proof using Type.
  apply sort_Sorted.
  generalize (StronglySorted_Sorted (sort_desc l)).
  induction 1 as [|x l' _ IH Hd]; constructor; [exact IH|].
  destruct Hd; constructor. by apply descending_not_Gt.
Qed.

(** Elements of one score keep their order. *)
Lemma sort_stable s l :
  List.filter (fun a => bool_decide (key a = s))
    (JS.sort (fuzzy.descending key) l)
  = List.filter (fun a => bool_decide (key a = s)) l.
Proof using Type.
  apply sort_filter. intros x y Hx%bool_decide_eq_true Hy%bool_decide_eq_true.
  unfold fuzzy.descending. rewrite Hx, Hy, sub_sign_refl. done.
Qed.

End KeySort.

(** ** [fuzzy.filter] and the filter of the list *)

Section FilterFacts.
Context (matcher : string -> string -> option fuzzy.Score).
Context {A : Type} (pattern : string) (extract : A -> string).

Lemma collect_original idx l :
  map fuzzy.original (fuzzy.collect matcher pattern extract idx l)
  = List.filter (fun a => defined (matcher pattern (extract a))) l.
Proof.
  revert idx. induction l as [|a l IH]; intros idx; simpl; [done|].
  destruct (matcher pattern (extract a)); simpl; by rewrite IH.
Qed.

Lemma collect_score idx l :
  Forall (fun r => matcher pattern (extract (fuzzy.original r))
                   = Some (fuzzy.score r))
    (fuzzy.collect matcher pattern extract idx l).
Proof.
  revert idx. induction l as [|a l IH]; intros idx; simpl; [constructor|].
  destruct (matcher pattern (extract a)) eqn:E; [constructor|]; auto.
Qed.

Lemma collect_index_ge idx l :
  Forall (fun r => idx <= fuzzy.index r)
    (fuzzy.collect matcher pattern extract idx l).
Proof.
  revert idx. induction l as [|a l IH]; intros idx; simpl; [constructor|].
  assert (Forall (fun r => idx <= fuzzy.index r)
            (fuzzy.collect matcher pattern extract (S idx) l)) as H.
  { eapply Forall_impl; [apply IH|]. simpl. intros; lia. }
  destruct (matcher pattern (extract a)); [constructor|]; simpl; auto.
Qed.

Lemma collect_index_sorted idx l :
  StronglySorted (fun a b => fuzzy.index a < fuzzy.index b)
    (fuzzy.collect matcher pattern extract idx l).
Proof.
  revert idx. induction l as [|a l IH]; intros idx; simpl; [constructor|].
  destruct (matcher pattern (extract a)); [|apply IH].
  constructor; [apply IH|]. simpl.
  eapply Forall_impl; [apply collect_index_ge|]. simpl. intros; lia.
Qed.

(** On results numbered in their order, the tie-break of [fuzzy.filter]
    on the index is what a stable sort on the score alone does. *)
Lemma sort_compare_results (rs : list (fuzzy.Result A)) :
  StronglySorted (fun a b => fuzzy.index a < fuzzy.index b) rs ->
  JS.sort fuzzy.compare_results rs
  = JS.sort (fun r1 r2 => fuzzy.sub_sign (fuzzy.score r2) (fuzzy.score r1)) rs.
Proof.
  induction 1 as [|x l _ IH Hx]; simpl; [done|].
  rewrite IH. apply insert_ext. intros y Hy%sort_In.
  rewrite List.Forall_forall in Hx. specialize (Hx y Hy).
  unfold fuzzy.compare_results.
  destruct (fuzzy.sub_sign (fuzzy.score y) (fuzzy.score x)); try done.
  apply Nat.compare_lt_iff in Hx. rewrite Hx. done.
Qed.

Lemma filter_unfold l :
  fuzzy.filter matcher pattern l extract
  = JS.sort fuzzy.compare_results (fuzzy.collect matcher pattern extract 0 l).
Proof. by destruct l. Qed.

End FilterFacts.

Section FormsListFilter.
Import Types FormsList.
Context (matcher : string -> string -> option fuzzy.Score).

(** The filter of the list in Local mode with a term, in one sort. *)
Lemma filteredForms_local term forms :
  term <> "" ->
  filteredForms matcher None term forms
  = Some (JS.sort (byItem matcher term)
            (List.filter (matches matcher term) (default [] forms))).
Proof.
  intros Ht%truthy_true. unfold filteredForms. simpl. rewrite Ht. simpl.
  destruct forms as [[|a l]|]; try done.
  set (forms := a :: l). simpl default. f_equal.
  rewrite filter_unfold.
  rewrite sort_compare_results by apply collect_index_sorted.
  unfold byScore.
  rewrite (sort_sort (A:=fuzzy.Result CompletedFormInfo) fuzzy.score).
  rewrite (map_sort fuzzy.original _ (byItem matcher term)).
  - by rewrite collect_original.
  - intros x y Hx Hy.
    pose proof (collect_score matcher term extract 0 forms) as Hs.
    rewrite List.Forall_forall in Hs.
    unfold byItem, scoreOf. by rewrite (Hs x Hx), (Hs y Hy).
Qed.

Lemma filter_all {A} (P : A -> bool) l :
  (forall x, In x l -> P x = true) -> List.filter P l = l.
Proof.
  induction l as [|x l IH]; intros H; simpl; [done|].
  rewrite (H x) by (by left). f_equal. apply IH. intros; apply H; by right.
Qed.

(** C5.  In Local mode (no [onSearch]) with a non-empty term, the filter
    of the list returns the items the matcher accepts on their display
    name (their name when they have none), every accepted item once,
    ordered by score from high to low, items of one score in the order
    they had in the result set.  An absent result set counts as empty.
    The filter is a function of the term and the result set alone: it
    makes no call.  The key, what is accepted and the score are written
    out in the statement, independently of [extract]. *)
Theorem C5_local_filter_ranked term forms :
  let key (item : CompletedFormInfo) :=
    match display (form item) with
    | Some displayName => displayName
    | None => name (form item)
    end in
  let accepted (item : CompletedFormInfo) :=
    match matcher term (key item) with Some _ => true | None => false end in
  let score (item : CompletedFormInfo) :=
    match matcher term (key item) with
    | Some s => s
    | None => fuzzy.Finite 0
    end in
  term <> "" ->
  exists out,
    filteredForms matcher None term forms = Some out
    /\ Permutation out (List.filter accepted (default [] forms))
    /\ StronglySorted (fun a b => fuzzy.le (score b) (score a)) out
    /\ forall s,
         List.filter (fun a => bool_decide (score a = s)) out
         = List.filter (fun a => bool_decide (score a = s))
             (List.filter accepted (default [] forms)).
Proof.
  intros key accepted score Ht.
  change (exists out,
    filteredForms matcher None term forms = Some out
    /\ Permutation out (List.filter (matches matcher term) (default [] forms))
    /\ StronglySorted
         (fun a b => fuzzy.le (scoreOf matcher term b) (scoreOf matcher term a))
         out
    /\ forall s,
         List.filter (fun a => bool_decide (scoreOf matcher term a = s)) out
         = List.filter (fun a => bool_decide (scoreOf matcher term a = s))
             (List.filter (matches matcher term) (default [] forms))).
  eexists. split; [by apply filteredForms_local|].
  split; [apply sort_Permutation|].
  split; [apply (sort_desc (scoreOf matcher term))|].
  intros s. apply (sort_stable (scoreOf matcher term)).
Qed.

(** C7.  In Local mode an empty term returns the result set as it is,
    absent or not; a non-empty term on an absent or an empty result set
    returns the empty list. *)
Theorem C7_local_empty_cases forms c term :
  filteredForms matcher None "" forms = forms
  /\ filteredForms matcher None (String c term) None = Some []
  /\ filteredForms matcher None (String c term) (Some []) = Some [].
Proof. done. Qed.

(** C9.  Filtering what the filter returned, with the same term, returns
    it again, element for element and in the same order (and the filter
    being a function, the same term on the same result set gives the same
    list each time). *)
Theorem C9_filter_idempotent onSearch term forms :
  filteredForms matcher onSearch term
    (filteredForms matcher onSearch term forms)
  = filteredForms matcher onSearch term forms.
Proof.
  destruct (truthy term) eqn:Ht.
  - destruct onSearch as [f|].
    + unfold filteredForms. simpl. by rewrite Ht.
    + apply truthy_true in Ht. rewrite !filteredForms_local by done.
      f_equal. simpl default.
      rewrite filter_all.
      * apply (sort_sort (scoreOf matcher term)).
      * intros x Hx%sort_In. by apply filter_In in Hx as [_ Hx].
  - unfold filteredForms. rewrite Ht. simpl. by rewrite andb_false_r.
Qed.

End FormsListFilter.

(** ** The sections of the dashboard *)

Section DashboardFacts.
Import Types FormsDashboard.

Lemma accepts_spec formSection item :
  accepts formSection item = true <->
  In (uuid (form item)) (forms formSection)
  \/ In (Types.name (form item)) (forms formSection).
Proof.
  unfold accepts. rewrite existsb_exists. split.
  - intros (c & Hc & [->%String.eqb_eq | ->%String.eqb_eq]%orb_true_iff); auto.
  - intros [H|H]; eexists; (split; [exact H|]);
      rewrite String.eqb_refl; by rewrite ?orb_true_r.
Qed.

Lemma filter_sublist {A} (P : A -> bool) l : sublist (List.filter P l) l.
Proof.
  induction l as [|x l IH]; simpl; [constructor|].
  destruct (P x); by constructor.
Qed.

(** C6.  With a result set and a list of sections, the dashboard builds
    one bucket per section, in the order and under the names of the
    configuration; the bucket of a section holds, in the order of the
    result set, exactly the items whose uuid or whose name is among the
    forms the section lists.  An item no section lists is in no bucket. *)
Theorem C6_sections_membership cfg results secs :
  formSections cfg = Some secs ->
  exists ss,
    sections cfg (Some results) = Some ss
    /\ length ss = length secs
    /\ (forall i formSection, secs !! i = Some formSection ->
          exists s bucket,
            ss !! i = Some s
            /\ section_name s = name formSection
            /\ availableForms s = Some bucket
            /\ sublist bucket results
            /\ forall item,
                 In item bucket <->
                 In item results
                 /\ (In (uuid (form item)) (forms formSection)
                     \/ In (Types.name (form item)) (forms formSection)))
    /\ (forall item,
          (forall formSection, In formSection secs ->
             ~ In (uuid (form item)) (forms formSection)
             /\ ~ In (Types.name (form item)) (forms formSection)) ->
          forall s bucket,
            In s ss -> availableForms s = Some bucket -> ~ In item bucket).
Proof.
  intros Hs. unfold sections. rewrite Hs. eexists. split; [done|].
  split; [by rewrite length_map|]. split.
  - intros i formSection Hi. do 2 eexists.
    rewrite list_lookup_fmap, Hi. simpl.
    do 3 (split; [done|]). split; [apply filter_sublist|].
    intros item. by rewrite filter_In, accepts_spec.
  - intros item Hno s bucket (formSection & <- & Hin)%in_map_iff. simpl.
    intros [= <-] [_ Hacc%accepts_spec]%filter_In.
    destruct (Hno formSection Hin). tauto.
Qed.

Lemma empty_state_test d :
  isSearching d = false ->
  lengthIsZero (data (result d)) && negb (isSearching d)
    && negb (isLoading (result d)) && negb (isValidating (result d)) = true
  <-> data (result d) = Some []
      /\ isLoading (result d) = false /\ isValidating (result d) = false.
Proof.
  intros ->. simpl. rewrite andb_true_r, !andb_true_iff, !negb_true_iff.
  assert (lengthIsZero (data (result d)) = true <-> data (result d) = Some [])
    as ->; [|tauto].
  by destruct (data (result d)) as [[|]|].
Qed.

(** C8, as the code has it.  With an empty list of sections, a render
    while searching returns the searching skeleton, and a render of an
    empty array of forms with nothing loading or validating returns the
    empty state, neither with any list; every other render, one that gets
    past these two early returns, returns exactly one list: the
    unsectioned one, over the whole result set. *)
Theorem C8_empty_sections_single_list d :
  formSections (config d) = Some [] ->
  (isSearching d = true -> render d = Returned SearchingSkeleton)
  /\ (isSearching d = false ->
      data (result d) = Some [] ->
      isLoading (result d) = false ->
      isValidating (result d) = false ->
      render d = Returned EmptyState)
  /\ (isSearching d = false ->
      ~ (data (result d) = Some []
         /\ isLoading (result d) = false /\ isValidating (result d) = false) ->
      exists p,
        render d = Returned (Lists [p])
        /\ FormsList.completedForms p = data (result d)
        /\ FormsList.sectionName p = "forms"
        /\ FormsList.onSearch p = Some handleSearch).
Proof.
  intros Hs. split; [|split].
  - unfold render. by intros ->.
  - intros Hq H1 H2 H3. unfold render.
    assert (lengthIsZero (data (result d)) && negb (isSearching d)
            && negb (isLoading (result d)) && negb (isValidating (result d))
            = true) as -> by (by apply empty_state_test).
    by rewrite Hq.
  - intros Hq Hne. rewrite <- empty_state_test in Hne by done.
    apply not_true_is_false in Hne.
    eexists. unfold render, sections. rewrite Hs, Hne, Hq.
    split; [reflexivity|]. done.
Qed.

(** C10, as the code has it.  With [formSections] absent the sections are
    [undefined] and no render returns lists; a render that gets past the
    two early returns throws the type error of reading [length], a render
    while searching returns the skeleton, and a render of an empty array
    of forms with nothing loading or validating returns the empty state. *)
Theorem C10_absent_sections_type_error d :
  formSections (config d) = None ->
  sections (config d) (data (result d)) = None
  /\ (forall l, render d <> Returned (Lists l))
  /\ (isSearching d = true -> render d = Returned SearchingSkeleton)
  /\ (isSearching d = false ->
      data (result d) = Some [] ->
      isLoading (result d) = false ->
      isValidating (result d) = false ->
      render d = Returned EmptyState)
  /\ (isSearching d = false ->
      ~ (data (result d) = Some []
         /\ isLoading (result d) = false /\ isValidating (result d) = false) ->
      render d = TypeError).
Proof.
  intros Hs. unfold render, sections. rewrite Hs.
  split; [done|]. split; [|split; [|split]].
  - intros l. destruct (isSearching d); [done|].
    by destruct (_ && _).
  - by intros ->.
  - intros Hq H1 H2 H3.
    assert (lengthIsZero (data (result d)) && negb (isSearching d)
            && negb (isLoading (result d)) && negb (isValidating (result d))
            = true) as -> by (by apply empty_state_test).
    by rewrite Hq.
  - intros Hq Hne. rewrite <- empty_state_test in Hne by done.
    apply not_true_is_false in Hne. by rewrite Hne, Hq.
Qed.

End DashboardFacts.

(** ** The debounced functions *)

Section DebounceFacts.
Import Lodash.
Context (wait : nat) (wait_pos : 0 < wait).

Lemma debounced_pending time term d :
  timerId d = None \/ (exists term' since, pendingSince wait time d term' since) ->
  pendingSince wait time (debounced wait time term d) term time.
Proof using wait_pos.
  unfold debounced, pendingSince. intros [H|(term' & since & _ & _ & due & H & ? & ? & ?)];
    simpl; rewrite H.
  - destruct (shouldInvoke wait time d); simpl;
      (do 2 (split; [done|]); eexists; split; [done|]; lia).
  - simpl. do 2 (split; [done|]). eexists; split; [done|]. lia.
Qed.

(** While the wait since the last call has not passed, a tick invokes
    nothing; the tick that completes it invokes the function with the
    last term, and leaves no timer behind. *)
Lemma tick_pending time d term since :
  pendingSince wait time d term since ->
  (S time < since + wait ->
   exists d', tick wait (S time) d = (d', None)
              /\ pendingSince wait (S time) d' term since)
  /\ (S time = since + wait ->
      tick wait (S time) d = (mkDebounced None (Some since) None, Some term)).
Proof using wait_pos.
  intros (Ha & Hc & due & Ht & H1 & H2 & H3).
  unfold tick, timerExpired, shouldInvoke, trailingEdge, remainingWait.
  rewrite Ht, Hc, Ha. split; intros Hlt.
  - destruct (due <=? S time) eqn:Hd.
    + assert ((wait <=? S time - since) = false) as -> by (apply Nat.leb_gt; lia).
      eexists. split; [done|]. unfold pendingSince. simpl.
      do 2 (split; [done|]). eexists; split; [done|]. lia.
    + apply Nat.leb_gt in Hd. eexists. split; [done|].
      unfold pendingSince. do 2 (split; [done|]).
      eexists; split; [done|]. lia.
  - assert ((due <=? S time) = true) as -> by (apply Nat.leb_le; lia).
    assert ((wait <=? S time - since) = true) as -> by (apply Nat.leb_le; lia).
    done.
Qed.

Lemma tick_idle time d : timerId d = None -> tick wait time d = (d, None).
Proof using Type. unfold tick. by intros ->. Qed.

Lemma run_app es1 es2 t : run wait (es1 ++ es2) t = run wait es2 (run wait es1 t).
Proof using Type. apply foldl_app. Qed.

Lemma step_tick_pending t term since :
  pendingSince wait (now t) (handler t) term since ->
  S (now t) < since + wait ->
  exists d', step wait t Tick = mkTimeline (S (now t)) d' (invoked t)
             /\ pendingSince wait (S (now t)) d' term since.
Proof using wait_pos.
  intros Hp Hlt. destruct (tick_pending _ _ _ _ Hp) as [Hq _].
  destruct (Hq Hlt) as (d' & Hd & Hp'). exists d'. simpl. by rewrite Hd.
Qed.

Lemma run_ticks_pending k t term since :
  pendingSince wait (now t) (handler t) term since ->
  now t + k < since + wait ->
  now (run wait (repeat Tick k) t) = now t + k
  /\ invoked (run wait (repeat Tick k) t) = invoked t
  /\ pendingSince wait (now t + k) (handler (run wait (repeat Tick k) t))
       term since.
Proof using wait_pos.
  revert t. induction k as [|k IH]; intros t Hp Hk.
  - rewrite Nat.add_0_r. done.
  - destruct (step_tick_pending t term since Hp) as (d' & Hs & Hp'); [lia|].
    change (run wait (repeat Tick (S k)) t)
      with (run wait (repeat Tick k) (step wait t Tick)).
    rewrite Hs.
    destruct (IH (mkTimeline (S (now t)) d' (invoked t))) as (H1 & H2 & H3);
      [done|simpl; lia|].
    simpl in H1, H2, H3. rewrite H1, H2.
    replace (now t + S k) with (S (now t) + k) by lia. done.
Qed.

Lemma run_ticks_idle k t :
  timerId (handler t) = None ->
  invoked (run wait (repeat Tick k) t) = invoked t.
Proof using Type.
  revert t. induction k as [|k IH]; intros t Hi; [done|].
  change (run wait (repeat Tick (S k)) t)
    with (run wait (repeat Tick k) (step wait t Tick)).
  assert (step wait t Tick = mkTimeline (S (now t)) (handler t) (invoked t))
    as -> by (simpl; by rewrite tick_idle).
  by rewrite IH.
Qed.

(** From a call just made, [quiet] milliseconds without another call. *)
Lemma run_quiet quiet t term :
  pendingSince wait (now t) (handler t) term (now t) ->
  invoked (run wait (repeat Tick quiet) t)
  = invoked t ++ (if quiet <? wait then [] else [term]).
Proof using wait_pos.
  intros Hp. destruct (quiet <? wait) eqn:Hq.
  - apply Nat.ltb_lt in Hq.
    destruct (run_ticks_pending quiet t term (now t) Hp) as (_ & -> & _);
      [lia|]. by rewrite app_nil_r.
  - apply Nat.ltb_ge in Hq.
    replace quiet with ((wait - 1) + (1 + (quiet - wait))) by lia.
    rewrite repeat_app, run_app.
    destruct (run_ticks_pending (wait - 1) t term (now t) Hp)
      as (Hn & Hi & Hp'); [lia|].
    set (t1 := run wait (repeat Tick (wait - 1)) t) in *.
    rewrite repeat_app, run_app.
    rewrite <- Hn in Hp'.
    destruct (tick_pending _ _ _ _ Hp') as [_ Hf].
    assert (run wait (repeat Tick 1) t1
            = mkTimeline (S (now t1)) (mkDebounced None (Some (now t)) None)
                (invoked t ++ [term])) as ->.
    { simpl. rewrite Hf by lia. by rewrite Hi. }
    by rewrite run_ticks_idle.
Qed.

Lemma last_cons {A} (a d : A) l : List.last (a :: l) d = List.last l a.
Proof.
  revert a d. induction l as [|b l IH]; intros a d; [done|].
  change (List.last (b :: l) d = List.last (b :: l) a). by rewrite !IH.
Qed.

(** After any run of submissions, each less than the wait after the one
    before it, nothing has been invoked and the last term waits. *)
Lemma run_submissions rest first t :
  Forall (fun '(gap, _) => gap < wait) rest ->
  invoked t = [] ->
  pendingSince wait (now t) (handler t) first (now t) ->
  exists t',
    run wait (flat_map (fun '(gap, term) => repeat Tick gap ++ [Submit term])
                rest) t = t'
    /\ invoked t' = []
    /\ pendingSince wait (now t') (handler t') (List.last (map snd rest) first)
         (now t').
Proof using wait_pos.
  revert first t. induction rest as [|[gap term] rest IH];
    intros first t Hg Hi Hp; [by exists t|].
  apply Forall_cons in Hg as [Hgap Hg].
  cbn [flat_map]. rewrite run_app, run_app. cbn [map snd]. rewrite last_cons.
  destruct (run_ticks_pending gap t first (now t) Hp) as (Hn & Hi' & Hp');
    [lia|].
  set (t1 := run wait (repeat Tick gap) t) in *.
  rewrite <- Hn in Hp'.
  apply IH; [done| |].
  - simpl. congruence.
  - simpl. apply debounced_pending. right. exists first, (now t). exact Hp'.
Qed.

(** The function given to [debounce] is invoked with the final term of
    such a run once the wait has passed in quiet, and with nothing else
    and not before. *)
Lemma debounce_trailing_edge start first rest quiet :
  Forall (fun '(gap, _) => gap < wait) rest ->
  invoked (run wait (submissions first rest ++ repeat Tick quiet)
             (mkTimeline start debounce []))
  = if quiet <? wait then [] else [final first rest].
Proof using wait_pos.
  intros Hg. rewrite run_app. unfold submissions.
  change (Submit first :: ?l) with ([Submit first] ++ l). rewrite run_app.
  set (t0 := run wait [Submit first] (mkTimeline start debounce [])).
  destruct (run_submissions rest first t0 Hg) as (t' & -> & Hi & Hp).
  - done.
  - apply (debounced_pending start first debounce). by left.
  - rewrite (run_quiet quiet t' _ Hp). by rewrite Hi.
Qed.

End DebounceFacts.

(** ** What a render leaves alone *)

Section RenderFacts.
Import Types FormsList.
Context (matcher : string -> string -> option fuzzy.Score).

Lemma commitRefs_fields rebuilt trigger i :
  props (commitRefs rebuilt trigger i) = props i
  /\ searchTerm (commitRefs rebuilt trigger i) = searchTerm i
  /\ handleSearch (commitRefs rebuilt trigger i) = handleSearch i
  /\ retired (commitRefs rebuilt trigger i) = retired i
  /\ now (commitRefs rebuilt trigger i) = now i
  /\ mounted (commitRefs rebuilt trigger i) = mounted i
  /\ calls (commitRefs rebuilt trigger i) = calls i.
Proof.
  unfold commitRefs. by destruct (sentinel i), trigger, rebuilt.
Qed.

Lemma render_fields p term i :
  props (render matcher p term i) = p
  /\ searchTerm (render matcher p term i) = term
  /\ handleSearch (render matcher p term i)
     = (if bool_decide (onSearch (props i) = onSearch p)
        then handleSearch i else Lodash.debounce)
  /\ retired (render matcher p term i)
     = (if bool_decide (onSearch (props i) = onSearch p) then retired i
        else retired i ++ [(onSearch (props i), handleSearch i)])
  /\ now (render matcher p term i) = now i
  /\ mounted (render matcher p term i) = mounted i
  /\ calls (render matcher p term i) = calls i.
Proof.
  unfold render.
  set (j := mkInstance p term _ _ _ _ _ _ _ _).
  set (r := negb _). set (t := hasTrigger _).
  destruct (commitRefs_fields r t j) as (H1 & H2 & H3 & H4 & H5 & H6 & H7).
  unfold withStore. cbn [props searchTerm handleSearch retired now mounted calls].
  by rewrite H1, H2, H3, H4, H5, H6, H7.
Qed.

End RenderFacts.

(** ** Typing into the search box of a list without [onSearch] *)

Section LocalSearch.
Import Types FormsList.
Context (matcher : string -> string -> option fuzzy.Score).



Lemma retired_quiet time (r : list (option Callback * Lodash.Debounced)) :
  Forall (fun '(_, d) => Lodash.timerId d = None) r ->
  map (fun '(f, (d, _)) => (f, d))
    (map (fun '(f, d) => (f, Lodash.tick handleSearch_wait time d)) r) = r
  /\ flat_map (fun '(f, (_, args)) => fire f args)
       (map (fun '(f, d) => (f, Lodash.tick handleSearch_wait time d)) r) = []
  /\ omap (fun '(_, (_, args)) => args)
       (map (fun '(f, d) => (f, Lodash.tick handleSearch_wait time d)) r) = [].
Proof.
  induction 1 as [|[f d] r Hd _ (IH1 & IH2 & IH3)]; [done|].
  cbn [map flat_map omap list_omap]. rewrite (tick_idle _ _ _ Hd). simpl.
  rewrite IH1, IH2. split; [done|]. split; [done|]. exact IH3.
Qed.

(** With no old timer left, a tick is a tick of the debounced function. *)
Lemma tick_quiet i :
  quietRetired i ->
  tick matcher i
  = let cur := Lodash.tick handleSearch_wait (S (now i)) (handleSearch i) in
    let j := mkInstance (props i) (searchTerm i) (store i) (sentinel i)
               (nextElement i) (fst cur) (retired i) (S (now i)) (mounted i)
               (calls i ++ fire (onSearch (props i)) (snd cur)) in
    match snd cur with
    | Some t => if mounted i then render matcher (props i) t j else j
    | None => j
    end.
Proof.
  intros Hq. unfold tick.
  destruct (retired_quiet (S (now i)) (retired i) Hq) as (-> & -> & ->).
  cbn [app last]. by destruct (snd _).
Qed.










End LocalSearch.


(** The same run, computed: nothing after 499 quiet milliseconds, the
    final term alone after 500. *)
Example debounce_computed :
  Lodash.invoked
    (Lodash.run 500
       (Lodash.submissions "v" [(120, "vi"); (499, "vit")]
          ++ repeat Lodash.Tick 499)
       (Lodash.mkTimeline 0 Lodash.debounce [])) = []
  /\ Lodash.invoked
       (Lodash.run 500
          (Lodash.submissions "v" [(120, "vi"); (499, "vit")]
             ++ repeat Lodash.Tick 2000)
          (Lodash.mkTimeline 0 Lodash.debounce [])) = ["vit"]
  /\ (let i := FormsList.run fuzzy.match_
                 (FormsList.typing "v" [(120, "vi"); (499, "vit")]
                    ++ repeat FormsList.Tick 500)
                 (FormsList.mount fuzzy.match_ Samples.scrolling) in
      FormsList.calls i = [FormsList.CallSetSearchTerm "vit"]
      /\ FormsList.searchTerm i = "vit"
      /\ FormsList.filteredForms fuzzy.match_ None (FormsList.searchTerm i)
           (FormsList.completedForms (FormsList.props i))
         = Some [Samples.vitals; Samples.visitNote]).
Proof. repeat split; vm_compute; reflexivity. Qed.

(** ** Worked inputs *)

Section Worked.
Import Types Samples.

(** The filter with the matcher of the package: an exact match first,
    then by score, and the two forms that score alike in the order of
    the result set. *)
Example filteredForms_computed :
  FormsList.filteredForms fuzzy.match_ None "vit"
    (Some [covid; visitNote; vitals; vit; vitaminA])
  = Some [vit; vitals; vitaminA; visitNote]
  /\ map (fun a => fuzzy.match_ "vit" (FormsList.extract a))
       [covid; visitNote; vitals; vit; vitaminA]
     = [None; Some (fuzzy.Finite 5); Some (fuzzy.Finite 11);
        Some fuzzy.Infinity; Some (fuzzy.Finite 11)].
Proof. split; vm_compute; reflexivity. Qed.

Lemma C5_witness :
  "vit" <> ""
  /\ exists out,
       FormsList.filteredForms fuzzy.match_ None "vit"
         (Some [covid; visitNote; vitals; vit; vitaminA]) = Some out
       /\ Permutation out
            (List.filter
               (fun item =>
                  match
                    fuzzy.match_ "vit"
                      match Types.display (Types.form item) with
                      | Some displayName => displayName
                      | None => Types.name (Types.form item)
                      end
                  with
                  | Some _ => true
                  | None => false
                  end)
               (default [] (Some [covid; visitNote; vitals; vit; vitaminA]))).
Proof.
  assert ("vit" <> "") as H by discriminate.
  split; [exact H|].
  destruct (C5_local_filter_ranked fuzzy.match_ "vit"
              (Some [covid; visitNote; vitals; vit; vitaminA]) H)
    as (out & H1 & H2 & _).
  exists out. split; [exact H1 | exact H2].
Defined.

(** The sample of the specification: two sections that each take one form,
    and a form no section takes. *)
Example sections_computed :
  FormsDashboard.sections (FormsDashboard.mkConfig (Some twoSections) false)
    (Some [vitals; visitNote; covid])
  = Some [FormsDashboard.mkSection "S1" ["uuid-vitals"] (Some [vitals]);
          FormsDashboard.mkSection "S2" ["note"; "Vitals"]
            (Some [vitals; visitNote])].
Proof. vm_compute. reflexivity. Qed.

Lemma C6_witness :
  FormsDashboard.formSections (FormsDashboard.mkConfig (Some twoSections) false)
  = Some twoSections
  /\ exists ss,
       FormsDashboard.sections
         (FormsDashboard.mkConfig (Some twoSections) false)
         (Some [vitals; visitNote; covid]) = Some ss
       /\ length ss = length twoSections.
Proof.
  split; [reflexivity|].
  destruct (C6_sections_membership
              (FormsDashboard.mkConfig (Some twoSections) false)
              [vitals; visitNote; covid] twoSections eq_refl)
    as (ss & H1 & H2 & _).
  exists ss. split; [exact H1 | exact H2].
Defined.

(** C8, counterexample.  Empty sections, an empty array of forms and
    nothing in flight (the state the tests of the dashboard render): the
    dashboard returns its empty state, and no list at all. *)
Lemma C8_counterexample :
  ~ (forall d,
       FormsDashboard.formSections (FormsDashboard.config d) = Some [] ->
       exists p, FormsDashboard.render d
                 = FormsDashboard.Returned (FormsDashboard.Lists [p])).
Proof.
  intros H. destruct (H (idle (Some []) []) eq_refl) as [p Hp].
  vm_compute in Hp. discriminate Hp.
Qed.

Example empty_sections_empty_state :
  FormsDashboard.render (idle (Some []) [])
  = FormsDashboard.Returned FormsDashboard.EmptyState.
Proof. reflexivity. Qed.

Lemma C8_witness :
  FormsDashboard.formSections (FormsDashboard.config (idle (Some []) [vitals]))
  = Some []
  /\ exists p,
       FormsDashboard.render (idle (Some []) [vitals])
       = FormsDashboard.Returned (FormsDashboard.Lists [p])
       /\ FormsList.completedForms p = Some [vitals].
Proof.
  split; [reflexivity|].
  destruct (proj2 (proj2 (C8_empty_sections_single_list
                            (idle (Some []) [vitals]) eq_refl)) eq_refl)
    as (p & H1 & H2 & _).
  - intros [H _]. discriminate H.
  - exists p. split; [exact H1 | exact H2].
Defined.

(** C10, counterexample.  No [formSections], an empty array of forms and
    nothing in flight: the dashboard returns its empty state before it
    reads the length of the sections, and throws nothing. *)
Lemma C10_counterexample :
  ~ (forall d,
       FormsDashboard.formSections (FormsDashboard.config d) = None ->
       FormsDashboard.render d = FormsDashboard.TypeError).
Proof.
  intros H. specialize (H (idle None []) eq_refl).
  vm_compute in H. discriminate H.
Qed.

Example absent_sections_empty_state :
  FormsDashboard.render (idle None [])
  = FormsDashboard.Returned FormsDashboard.EmptyState.
Proof. reflexivity. Qed.

Lemma C10_witness :
  FormsDashboard.formSections (FormsDashboard.config (idle None [vitals]))
  = None
  /\ FormsDashboard.sections (FormsDashboard.config (idle None [vitals]))
       (FormsDashboard.data (FormsDashboard.result (idle None [vitals])))
     = None
  /\ FormsDashboard.render (idle None [vitals]) = FormsDashboard.TypeError.
Proof.
  split; [reflexivity|].
  destruct (C10_absent_sections_type_error (idle None [vitals]) eq_refl)
    as (H1 & _ & _ & _ & H5).
  split; [exact H1|].
  apply H5; [reflexivity|]. intros [H _]. discriminate H.
Defined.

End Worked.

(** ** The load-more trigger and teardown *)

Section TriggerRuns.
Import Types Samples FormsList.

(** C1, the failing run.  The list scrolls; [hasMore] turns false and true
    again.  The observer of the first render, disconnected by the cleanup
    but still in [observerRef], is handed the new trigger by the callback
    ref before the effect builds the next observer, and nothing ever
    disconnects it again.  The trigger comes into view: both observers
    call [loadMore].  [isValidating] turns true; the trigger leaves the
    view and enters it again: the old observer, with the [isValidating]
    of the first render in its closure, calls [loadMore] once more. *)
Theorem C1_stale_observer_loads_in_flight :
  let i := run fuzzy.match_
             [Render (withHasMore false scrolling);
              Render scrolling;
              Intersect [true];
              Render (withIsValidating true scrolling)]
             (mount fuzzy.match_ scrolling) in
  isValidating (props i) = true
  /\ map (fun ob => (closure_isValidating ob, targets ob))
       (observers (store i))
     = [(false, [1]); (false, []); (true, [1])]
  /\ observerRef (store i) = Some 2
  /\ calls i = [CallLoadMore loadNextPage; CallLoadMore loadNextPage]
  /\ calls (run fuzzy.match_ [Intersect [false]; Intersect [true]] i)
     = calls i ++ [CallLoadMore loadNextPage].
Proof. vm_compute. repeat split; reflexivity. Qed.

(** Without the detour through [hasMore] false the same events make one
    call, and none while [isValidating] is true. *)
Example fresh_observer_waits :
  let i := run fuzzy.match_
             [Intersect [true];
              Render (withIsValidating true scrolling)]
             (mount fuzzy.match_ scrolling) in
  calls i = [CallLoadMore loadNextPage]
  /\ calls (run fuzzy.match_ [Intersect [false]; Intersect [true]] i)
     = calls i.
Proof. vm_compute. split; reflexivity. Qed.

(** C4, the failing run.  The list scrolls; the load-more callback goes
    away (the cleanup disconnects the observer, the effect builds none,
    [observerRef] keeps the old one); the list shows its searching message
    and then its table again, so the trigger is a new element, and the
    callback ref has the old observer observe it.  Now there is no
    [loadMore], an observer observes the trigger in the document, and
    when the trigger comes into view it calls the [loadMore] of the first
    render.  In the second run [hasMore] ends false and the observer of
    the first render is left observing the element that was the trigger. *)
Theorem C4_stale_observer_still_observes :
  let i := run fuzzy.match_
             [Render (withLoadMore None scrolling);
              Render (withIsSearching true (withLoadMore None scrolling));
              Render (withLoadMore None scrolling)]
             (mount fuzzy.match_ scrolling) in
  let j := run fuzzy.match_
             [Render (withHasMore false scrolling);
              Render scrolling;
              Render (withHasMore false scrolling)]
             (mount fuzzy.match_ scrolling) in
  (loadMore (props i) = None
   /\ sentinel i = Some 1
   /\ map targets (observers (store i)) = [[1]]
   /\ calls i = []
   /\ calls (run fuzzy.match_ [Intersect [true]] i) = [CallLoadMore loadNextPage])
  /\ (hasMore (props j) = false
      /\ sentinel j = None
      /\ map targets (observers (store j)) = [[1]; []]).
Proof. vm_compute. repeat split; reflexivity. Qed.

(** With no load-more callback from the start nothing is built. *)
Example no_callback_no_observer :
  observers (store (mount fuzzy.match_ (withLoadMore None scrolling))) = []
  /\ observers (store (mount fuzzy.match_ (withHasMore false scrolling))) = [].
Proof. split; reflexivity. Qed.

(** C3, counterexample.  A list without [onSearch]; a term is typed and
    the list is unmounted at once.  Unmounting calls nothing, and 499 ms
    later still nothing has been called; at 500 ms the timer of the
    debounced function expires and the function runs, calling
    [setSearchTerm] with the term. *)
Lemma C3_counterexample :
  let i := run fuzzy.match_ [TypeSearch "vit"; Unmount]
             (mount fuzzy.match_ scrolling) in
  mounted i = false
  /\ calls i = []
  /\ calls (run fuzzy.match_ (repeat Tick 499) i) = []
  /\ calls (run fuzzy.match_ (repeat Tick 500) i) = [CallSetSearchTerm "vit"].
Proof. vm_compute. repeat split; reflexivity. Qed.

End TriggerRuns.

Section Teardown.
Import Types FormsList.
Context (matcher : string -> string -> option fuzzy.Score).

Lemma tick_unmounted i :
  mounted i = false ->
  mounted (tick matcher i) = false
  /\ props (tick matcher i) = props i
  /\ now (tick matcher i) = S (now i)
  /\ handleSearch (tick matcher i)
     = fst (Lodash.tick handleSearch_wait (S (now i)) (handleSearch i))
  /\ exists before,
       calls (tick matcher i)
       = calls i ++ before
         ++ fire (onSearch (props i))
              (snd (Lodash.tick handleSearch_wait (S (now i)) (handleSearch i))).
Proof.
  intros Hm. unfold tick.
  set (old := map _ (retired i)).
  set (cur := Lodash.tick handleSearch_wait (S (now i)) (handleSearch i)).
  destruct (match snd cur with Some t => Some t | None => _ end);
    simpl; rewrite ?Hm; simpl; repeat split; try done; by eexists.
Qed.

Lemma run_ticks_cons k i :
  run matcher (repeat Tick (S k)) i = run matcher (repeat Tick k) (tick matcher i).
Proof. done. Qed.

(** Ticks on an unmounted list only add to the record of calls. *)
Lemma ticks_unmounted_grow k i :
  mounted i = false ->
  exists made, calls (run matcher (repeat Tick k) i) = calls i ++ made.
Proof.
  revert i. induction k as [|k IH]; intros i Hm.
  - exists []. by rewrite app_nil_r.
  - rewrite run_ticks_cons.
    destruct (tick_unmounted i Hm) as (Hm' & _ & _ & _ & before & Hc).
    destruct (IH _ Hm') as [made ->]. rewrite Hc.
    eexists. by rewrite <- !app_assoc.
Qed.

(** While the wait has not passed, the call goes on waiting. *)
Lemma ticks_unmounted_pending k i term since :
  mounted i = false ->
  Lodash.pendingSince handleSearch_wait (now i) (handleSearch i) term since ->
  now i + k < since + handleSearch_wait ->
  exists i',
    run matcher (repeat Tick k) i = i'
    /\ mounted i' = false /\ props i' = props i /\ now i' = now i + k
    /\ Lodash.pendingSince handleSearch_wait (now i') (handleSearch i') term since
    /\ exists made, calls i' = calls i ++ made.
Proof.
  revert i. induction k as [|k IH]; intros i Hm Hp Hk.
  - exists i. rewrite Nat.add_0_r. do 5 (split; [done|]).
    exists []. by rewrite app_nil_r.
  - rewrite run_ticks_cons.
    destruct (tick_unmounted i Hm) as (Hm' & Hpr & Hn & Hh & before & Hc).
    destruct (tick_pending handleSearch_wait ltac:(unfold handleSearch_wait; lia)
                _ _ _ _ Hp) as [Hq _].
    destruct Hq as (d' & Hd & Hp'); [lia|].
    rewrite Hd in Hh, Hc. simpl in Hh, Hc.
    destruct (IH (tick matcher i)) as (i' & Hr & H1 & H2 & H3 & H4 & made & H5).
    + done.
    + by rewrite Hn, Hh.
    + rewrite Hn. lia.
    + exists i'. split; [done|]. split; [done|].
      split; [congruence|]. split; [lia|]. split; [done|].
      rewrite H5, Hc. eexists. by rewrite <- !app_assoc.
Qed.

Lemma intersect_unmounted es i :
  sentinel i = None -> run matcher (map Intersect es) i = i.
Proof.
  intros Hs. induction es as [|e es IH]; [done|].
  cbn [map]. unfold run. cbn [foldl step]. unfold intersect. rewrite Hs.
  exact IH.
Qed.

Lemma cleanup_disconnected s o ob :
  observerRef (cleanup s) = Some o ->
  observers (cleanup s) !! o = Some ob ->
  targets ob = [].
Proof.
  unfold cleanup. destruct (observerRef s) as [o'|] eqn:E; simpl.
  - rewrite E. intros [= ->]. rewrite list_lookup_alter_eq.
    destruct (observers s !! o); simpl; [|done]. by intros [= <-].
  - rewrite ?E. done.
Qed.

Lemma unmount_disconnects i o ob :
  wantsObserver (props i) <> None ->
  observerRef (store (unmount i)) = Some o ->
  observers (store (unmount i)) !! o = Some ob ->
  targets ob = [].
Proof.
  intros Hw. unfold unmount. cbn [store].
  destruct (wantsObserver (props i)); [|done]. cbn [defined].
  apply cleanup_disconnected.
Qed.

(** A pending timer outlives the unmount: once the wait has passed the
    debounced function has run. *)
Lemma unmount_timer_fires i term since k :
  mounted i = true ->
  Lodash.pendingSince handleSearch_wait (now i) (handleSearch i) term since ->
  since + handleSearch_wait <= now i + k ->
  calls (step matcher i Unmount) = calls i
  /\ mounted (step matcher i Unmount) = false
  /\ sentinel (step matcher i Unmount) = None
  /\ (wantsObserver (props i) <> None ->
      forall o ob,
        observerRef (store (step matcher i Unmount)) = Some o ->
        observers (store (step matcher i Unmount)) !! o = Some ob ->
        targets ob = [])
  /\ (forall es,
        calls (run matcher (map Intersect es) (step matcher i Unmount))
        = calls i)
  /\ exists made,
       calls (run matcher (repeat Tick k) (step matcher i Unmount))
       = calls i ++ made
       /\ sublist (handleSearch_body (onSearch (props i)) term) made.
Proof.
  intros Hm Hp Hk. cbn [step]. rewrite Hm.
  split; [done|]. split; [done|]. split; [done|]. split; [|split].
  - intros Hw o ob. unfold unmount. cbn [store].
    destruct (wantsObserver (props i)); [|done]. cbn [defined].
    apply cleanup_disconnected.
  - intros es. by rewrite intersect_unmounted.
  - set (u := unmount i).
    assert (mounted u = false) as Hmu by done.
    assert (Hw : 0 < handleSearch_wait) by (unfold handleSearch_wait; lia).
    pose proof Hp as (_ & _ & due & _ & ? & ? & ?).
    replace k with ((since + handleSearch_wait - now i - 1)
                    + (1 + (k - (since + handleSearch_wait - now i)))) by lia.
    rewrite repeat_app.
    unfold run at 1. rewrite foldl_app.
    fold (run matcher (repeat Tick (since + handleSearch_wait - now i - 1)) u).
    destruct (ticks_unmounted_pending
                (since + handleSearch_wait - now i - 1) u term since Hmu Hp)
      as (i1 & -> & Hm1 & Hpr1 & Hn1 & Hp1 & made1 & Hc1);
      [change (now u) with (now i); lia|].
    rewrite repeat_app. rewrite foldl_app.
    change (foldl (step matcher) i1 (repeat Tick 1)) with (tick matcher i1).
    destruct (tick_unmounted i1 Hm1) as (Hm2 & _ & _ & _ & before & Hc2).
    destruct (tick_pending handleSearch_wait Hw _ _ _ _ Hp1) as [_ Hf].
    rewrite Hf in Hc2 by (rewrite Hn1; change (now u) with (now i); lia).
    cbn [snd fire] in Hc2. rewrite Hpr1 in Hc2.
    destruct (ticks_unmounted_grow
                (k - (since + handleSearch_wait - now i)) (tick matcher i1) Hm2)
      as [made3 Hc3].
    unfold run in Hc3. rewrite Hc3, Hc2, Hc1.
    exists (made1 ++ before
            ++ handleSearch_body (onSearch (props u)) term ++ made3).
    split; [by rewrite <- !app_assoc|].
    apply sublist_inserts_l, sublist_inserts_l, sublist_inserts_r. done.
Qed.

(** The debounced functions that hold a term have no [onSearch]. *)
Lemma localTimers_mount p : localTimers (mount matcher p).
Proof.
  unfold localTimers, mount.
  set (j := mkInstance p "" _ _ _ _ _ _ _ _). set (t := hasTrigger _).
  destruct (commitRefs_fields false t j) as (H1 & _ & H3 & H4 & _).
  unfold withStore. cbn [props handleSearch retired]. rewrite H1, H3, H4.
  split; [done|constructor].
Qed.

Lemma localTimers_ext i j :
  props j = props i -> handleSearch j = handleSearch i ->
  retired j = retired i -> localTimers i -> localTimers j.
Proof. unfold localTimers. by intros -> -> ->. Qed.

Lemma localTimers_render p term i :
  localTimers i -> localTimers (render matcher p term i).
Proof.
  intros [H1 H2].
  destruct (render_fields matcher p term i) as (Hp & _ & Hh & Hr & _).
  unfold localTimers. rewrite Hp, Hh, Hr. case_bool_decide as Heq.
  - split; [|done]. intros H. rewrite <- Heq. by apply H1.
  - split; [done|]. apply Forall_app. split; [done|]. by constructor.
Qed.

Lemma tick_lastArgs time d :
  (Lodash.lastArgs (fst (Lodash.tick handleSearch_wait time d)) <> None
   -> Lodash.lastArgs d <> None)
  /\ (snd (Lodash.tick handleSearch_wait time d) <> None
      -> Lodash.lastArgs d <> None).
Proof.
  unfold Lodash.tick, Lodash.timerExpired, Lodash.trailingEdge.
  destruct (Lodash.timerId d); [|done].
  destruct (_ <=? _); [|done].
  destruct (Lodash.shouldInvoke _ _ _); [|done].
  by destruct (Lodash.lastArgs d).
Qed.

(** On an unmounted list a tick makes only [setSearchTerm] calls, and
    changes nothing else but the clock and the debounced functions. *)
Lemma tick_unmounted_local i :
  mounted i = false -> localTimers i ->
  let j := tick matcher i in
  mounted j = false /\ localTimers j /\ sentinel j = sentinel i
  /\ searchTerm j = searchTerm i
  /\ exists made,
       calls j = calls i ++ made
       /\ Forall (fun c => exists term, c = CallSetSearchTerm term) made.
Proof.
  intros Hm [H1 H2]. unfold tick.
  set (cur := Lodash.tick handleSearch_wait (S (now i)) (handleSearch i)).
  set (old := map _ (retired i)).
  assert (Forall (fun '(f, d) => Lodash.lastArgs d <> None -> f = None)
            (map (fun '(f, (d, _)) => (f, d)) old)
          /\ Forall (fun c => exists term, c = CallSetSearchTerm term)
               (flat_map (fun '(f, (_, args)) => fire f args) old))
    as [Hold Hmade].
  { unfold old. clear -H2. induction H2 as [|[f d] r Hd _ [IH1 IH2]];
      [by split|].
    cbn [map flat_map].
    destruct (Lodash.tick handleSearch_wait (S (now i)) d) as [d' args] eqn:E.
    pose proof (tick_lastArgs (S (now i)) d) as [Ha Hb]. rewrite E in Ha, Hb.
    split.
    - constructor; [|done]. intros H. apply Hd. by apply Ha.
    - apply Forall_app. split; [|done].
      destruct args as [t|]; [|constructor]. rewrite Hd by (by apply Hb).
      repeat constructor. by exists t. }
  assert (Forall (fun c => exists term, c = CallSetSearchTerm term)
            (fire (onSearch (props i)) (snd cur))) as Hcur.
  { pose proof (tick_lastArgs (S (now i)) (handleSearch i)) as [_ Hb].
    fold cur in Hb. destruct (snd cur) as [t|]; [|constructor].
    cbn [fire]. rewrite H1 by (by apply Hb). repeat constructor. by exists t. }
  assert (Lodash.lastArgs (fst cur) <> None -> onSearch (props i) = None)
    as Hfst.
  { intros H. apply H1.
    pose proof (tick_lastArgs (S (now i)) (handleSearch i)) as [Ha _].
    exact (Ha H). }
  destruct (match snd cur with Some t => Some t | None => _ end);
    cbn; rewrite ?Hm; cbn;
    (split; [done|]); (split; [by split|]); (split; [done|]);
    (split; [done|]); eexists; (split; [done|]); by apply Forall_app.
Qed.

(** After the unmount, whatever happens, the list calls nothing but
    [setSearchTerm], and its search term stays what it was. *)
Lemma unmounted_run after i :
  mounted i = false -> sentinel i = None -> localTimers i ->
  exists made,
    calls (run matcher after i) = calls i ++ made
    /\ Forall (fun c => exists term, c = CallSetSearchTerm term) made
    /\ searchTerm (run matcher after i) = searchTerm i.
Proof.
  revert i. induction after as [|e after IH]; intros i Hm Hs Hl.
  - exists []. by rewrite app_nil_r.
  - change (run matcher (e :: after) i)
      with (run matcher after (step matcher i e)).
    destruct e as [p|entries|term| |]; cbn [step];
      rewrite ?Hm; try (by apply IH).
    + unfold intersect. rewrite Hs. by apply IH.
    + unfold typeSearch. rewrite Hm. by apply IH.
    + destruct (tick_unmounted_local i Hm Hl)
        as (Hm' & Hl' & Hs' & Ht & made1 & Hc & Hf).
      destruct (IH (tick matcher i)) as (made2 & -> & Hf2 & ->);
        [done|congruence|done|].
      exists (made1 ++ made2). rewrite Hc, <- app_assoc.
      split; [done|]. split; [by apply Forall_app|done].
Qed.

Lemma localTimers_step i e : localTimers i -> localTimers (step matcher i e).
Proof.
  intros Hl. destruct e as [p|entries|term| |]; cbn [step].
  - destruct (mounted i); [|done]. by apply localTimers_render.
  - unfold intersect. destruct (sentinel i); [|done].
    by apply (localTimers_ext i).
  - unfold typeSearch. destruct (mounted i && _); [|done].
    destruct (onSearch (props i)) eqn:Ho.
    + by apply (localTimers_ext i).
    + destruct Hl as [_ H2]. by split.
  - unfold tick.
    set (cur := Lodash.tick handleSearch_wait (S (now i)) (handleSearch i)).
    set (old := map _ (retired i)).
    set (j := mkInstance _ _ _ _ _ _ _ _ _ _).
    assert (localTimers j) as Hj.
    { destruct Hl as [H1 H2]. split; cbn.
      - intros H. apply H1.
        pose proof (tick_lastArgs (S (now i)) (handleSearch i)) as [Ha _].
        exact (Ha H).
      - unfold old. clear -H2.
        induction H2 as [|[f d] r Hd _ IH]; [constructor|].
        cbn [map].
        destruct (Lodash.tick handleSearch_wait (S (now i)) d) as [d' a] eqn:E.
        constructor; [|done]. intros H. apply Hd.
        pose proof (tick_lastArgs (S (now i)) d) as [Ha _].
        rewrite E in Ha. exact (Ha H). }
    destruct (match snd cur with Some t => Some t | None => _ end); [|done].
    destruct (mounted j); [|done]. by apply localTimers_render.
  - destruct (mounted i); [|done]. by apply (localTimers_ext i).
Qed.

Lemma localTimers_run es i : localTimers i -> localTimers (run matcher es i).
Proof.
  revert i. induction es as [|e es IH]; intros i Hl; [done|].
  apply IH. by apply localTimers_step.
Qed.

(** C3, as the code has it.  Unmounting a mounted list calls nothing and
    throws nothing; when the observer effect is active, the observer it
    leaves in [observerRef] observes nothing; and whatever happens after
    the unmount, the list calls neither [loadMore] nor [onSearch] and its
    search term stays what it was.  But a pending debounce timer is not
    cancelled: once 500 ms have passed since the last submission the
    debounced function runs all the same and calls [setSearchTerm] with
    the term, an update of the state of a component that is no longer
    there. *)
Theorem C3_unmount_keeps_debounce_timer p es :
  mounted (run matcher es (mount matcher p)) = true ->
  calls (step matcher (run matcher es (mount matcher p)) Unmount)
  = calls (run matcher es (mount matcher p))
  /\ (wantsObserver (props (run matcher es (mount matcher p))) <> None ->
      forall o ob,
        observerRef
          (store (step matcher (run matcher es (mount matcher p)) Unmount))
        = Some o ->
        observers
          (store (step matcher (run matcher es (mount matcher p)) Unmount))
        !! o = Some ob ->
        targets ob = [])
  /\ (forall after,
        exists made,
          calls (run matcher after
                   (step matcher (run matcher es (mount matcher p)) Unmount))
          = calls (run matcher es (mount matcher p)) ++ made
          /\ Forall (fun c => exists term, c = CallSetSearchTerm term) made
          /\ searchTerm
               (run matcher after
                  (step matcher (run matcher es (mount matcher p)) Unmount))
             = searchTerm (run matcher es (mount matcher p)))
  /\ (forall term since k,
        Lodash.pendingSince handleSearch_wait
          (now (run matcher es (mount matcher p)))
          (handleSearch (run matcher es (mount matcher p))) term since ->
        since + handleSearch_wait <= now (run matcher es (mount matcher p)) + k ->
        exists made,
          calls (run matcher (repeat Tick k)
                   (step matcher (run matcher es (mount matcher p)) Unmount))
          = calls (run matcher es (mount matcher p)) ++ made
          /\ In (CallSetSearchTerm term) made).
Proof.
  set (i := run matcher es (mount matcher p)). intros Hm.
  assert (localTimers i) as Hl
    by (apply localTimers_run, localTimers_mount).
  split; [|split; [|split]].
  - cbn [step]. by rewrite Hm.
  - intros Hw o ob. cbn [step]. rewrite Hm. by apply unmount_disconnects.
  - intros after. cbn [step]. rewrite Hm.
    by apply (unmounted_run after (unmount i)).
  - intros term since k Hp Hk.
    destruct (unmount_timer_fires i term since k Hm Hp Hk)
      as (_ & _ & _ & _ & _ & made & Hc & Hsub).
    exists made. split; [done|].
    apply list_elem_of_In. eapply elem_of_sublist; [|exact Hsub].
    unfold handleSearch_body. by left.
Qed.

End Teardown.

Lemma C3_witness :
  FormsList.mounted
    (FormsList.run fuzzy.match_ [FormsList.TypeSearch "vit"]
       (FormsList.mount fuzzy.match_ Samples.scrolling)) = true
  /\ FormsList.calls
       (FormsList.step fuzzy.match_
          (FormsList.run fuzzy.match_ [FormsList.TypeSearch "vit"]
             (FormsList.mount fuzzy.match_ Samples.scrolling))
          FormsList.Unmount)
     = FormsList.calls
         (FormsList.run fuzzy.match_ [FormsList.TypeSearch "vit"]
            (FormsList.mount fuzzy.match_ Samples.scrolling))
  /\ exists made,
       FormsList.calls
         (FormsList.run fuzzy.match_ (repeat FormsList.Tick 500)
            (FormsList.step fuzzy.match_
               (FormsList.run fuzzy.match_ [FormsList.TypeSearch "vit"]
                  (FormsList.mount fuzzy.match_ Samples.scrolling))
               FormsList.Unmount))
       = FormsList.calls
           (FormsList.run fuzzy.match_ [FormsList.TypeSearch "vit"]
              (FormsList.mount fuzzy.match_ Samples.scrolling)) ++ made
       /\ In (FormsList.CallSetSearchTerm "vit") made.
Proof.
  split; [reflexivity|].
  destruct (C3_unmount_keeps_debounce_timer fuzzy.match_ Samples.scrolling
              [FormsList.TypeSearch "vit"] eq_refl) as (H1 & _ & _ & H4).
  split; [exact H1|].
  apply (H4 "vit" 0 500).
  - split; [reflexivity|]. split; [reflexivity|].
    exists 500. split; [reflexivity|]. vm_compute. lia.
  - vm_compute. lia.
Defined.

(** ** Where the trigger is right: renders that pass the guard

    As long as no render fails the guard of the observer effect, the
    cleanup and the effect keep one current observer, and the trigger does
    what C1 says. *)

Section TriggerInvariant.
Import Types FormsList.
Context (matcher : string -> string -> option fuzzy.Score).

Lemma soleObserver_alter p s o lm g :
  observerRef s = Some o ->
  (forall ob, closure_isValidating (g ob) = closure_isValidating ob) ->
  soleObserver p s ->
  soleObserver p (mkStore (observerRef s) lm (alter g o (observers s))).
Proof.
  intros Ho Hg (o' & ob & Ho' & Hob & Hv & Hrest).
  assert (o' = o) as -> by congruence.
  exists o, (g ob). simpl. split; [done|]. split.
  - by rewrite list_lookup_alter_eq, Hob.
  - split; [by rewrite Hg|]. intros o2 ob2 H2 Hne.
    rewrite list_lookup_alter_ne in H2 by done. eauto.
Qed.

Lemma soleObserver_setLoadMoreRef p node s :
  soleObserver p s -> soleObserver p (setLoadMoreRef node s).
Proof.
  intros Hs. pose proof Hs as (o & ob & Ho & _).
  unfold setLoadMoreRef. rewrite Ho.
  assert (soleObserver p
            match loadMoreRef s with
            | Some previous => unobserve o previous s
            | None => s
            end) as H1.
  { destruct (loadMoreRef s); [|done].
    by apply soleObserver_alter. }
  set (s1 := match loadMoreRef s with
             | Some previous => unobserve o previous s
             | None => s
             end) in *.
  assert (observerRef s1 = Some o) as Ho1
    by (unfold s1; by destruct (loadMoreRef s)).
  assert (soleObserver p (mkStore (observerRef s1) node (observers s1))) as H2.
  { destruct H1 as (o' & ob' & ? & ? & ? & ?). by exists o', ob'. }
  simpl. rewrite Ho1 in *. destruct node as [n|]; [|exact H2].
  unfold observe. simpl.
  by apply (soleObserver_alter p (mkStore (Some o) (Some n) (observers s1))).
Qed.

Lemma soleObserver_cleanup p s : soleObserver p s -> inert (cleanup s).
Proof.
  intros (o & ob & Ho & Hob & _ & Hrest). unfold cleanup. rewrite Ho.
  intros o' ob'. simpl. destruct (decide (o' = o)) as [->|Hne].
  - rewrite list_lookup_alter_eq, Hob. by intros [= <-].
  - rewrite list_lookup_alter_ne by done. eauto.
Qed.

Lemma inert_effect p f s :
  wantsObserver p = Some f -> inert s -> soleObserver p (effect p s).
Proof.
  intros Hw Hi. unfold effect. rewrite Hw.
  set (o := length (observers s)).
  set (s1 := mkStore (Some o) (loadMoreRef s)
               (observers s ++ [mkObserver (isValidating p) f []])).
  assert (soleObserver p s1) as H1.
  { exists o, (mkObserver (isValidating p) f []). simpl.
    split; [done|]. split; [by apply list_lookup_middle|]. split; [done|].
    intros o' ob' H Hne. apply lookup_app_Some in H as [H|[? H]].
    - by apply Hi in H.
    - fold o in H. destruct (o' - o) eqn:E; [lia|done]. }
  simpl. destruct (loadMoreRef s) as [node|]; [|exact H1].
  by apply (soleObserver_alter p s1).
Qed.

Lemma deps_isValidating q p : deps q = deps p -> isValidating q = isValidating p.
Proof. unfold deps. congruence. Qed.

Lemma soleObserver_runEffect q p s :
  wantsObserver q <> None -> wantsObserver p <> None ->
  soleObserver q s -> soleObserver p (runEffect (Some q) p s).
Proof.
  intros Hq Hp Hs. unfold runEffect. case_bool_decide as Hd.
  - destruct Hs as (o & ob & ? & ? & Hv & ?). exists o, ob.
    rewrite <- (deps_isValidating q p Hd). done.
  - destruct (wantsObserver p) as [f|] eqn:Ep; [|done].
    destruct (wantsObserver q); [|done]. simpl.
    eapply inert_effect; [done|]. by eapply soleObserver_cleanup.
Qed.

Lemma soleObserver_commitRefs p rebuilt trigger i :
  soleObserver p (store i) ->
  soleObserver p (store (commitRefs rebuilt trigger i)).
Proof.
  intros Hs. unfold commitRefs, attachTrigger, detachTrigger.
  destruct (sentinel i), trigger, rebuilt; cbn [store];
    repeat apply soleObserver_setLoadMoreRef; done.
Qed.

Lemma current_render p term i :
  mounted i = true -> wantsObserver p <> None ->
  current i -> current (render matcher p term i).
Proof.
  unfold current. intros Hm Hp. rewrite Hm. intros [Hq Hs].
  destruct (render_fields matcher p term i) as (-> & _ & _ & _ & _ & -> & _).
  rewrite Hm.
  split; [done|]. unfold render. cbn [store withStore].
  apply soleObserver_runEffect; try done.
  by apply soleObserver_commitRefs.
Qed.

Lemma current_mount p : wantsObserver p <> None -> current (mount matcher p).
Proof.
  intros Hp. unfold current.
  assert (mounted (mount matcher p) = true) as ->.
  { unfold mount, withStore, commitRefs, attachTrigger. simpl.
    by destruct (hasTrigger _). }
  assert (props (mount matcher p) = p) as ->.
  { unfold mount, withStore, commitRefs, attachTrigger. simpl.
    by destruct (hasTrigger _). }
  split; [done|]. unfold mount. cbn [store withStore runEffect].
  destruct (wantsObserver p) as [f|] eqn:Ep; [|done].
  eapply inert_effect; [done|].
  unfold commitRefs, attachTrigger. simpl.
  destruct (hasTrigger _); simpl; intros o ob H; by destruct o.
Qed.

Lemma current_ext i j :
  mounted j = mounted i -> props j = props i -> store j = store i ->
  sentinel j = sentinel i -> current i -> current j.
Proof. unfold current. by intros -> -> -> ->. Qed.

Lemma current_tick i : current i -> current (tick matcher i).
Proof.
  intros Hc. unfold tick.
  set (old := map _ (retired i)).
  set (cur := Lodash.tick handleSearch_wait (S (now i)) (handleSearch i)).
  set (made := flat_map _ old ++ _).
  set (j := mkInstance (props i) (searchTerm i) (store i) (sentinel i)
              (nextElement i) (fst cur) _ (S (now i)) (mounted i)
              (calls i ++ made)).
  assert (current j) as Hj by (by apply (current_ext i)).
  destruct (match snd cur with Some t => Some t | None => _ end); [|done].
  destruct (mounted j) eqn:Hm; [|done].
  apply current_render; [done| |done].
  unfold current in Hj. rewrite Hm in Hj. tauto.
Qed.

Lemma current_step i e : guarded e -> current i -> current (step matcher i e).
Proof.
  intros Hg Hc. destruct e as [p|entries|term| |]; cbn [step].
  - destruct (mounted i) eqn:Hm; [|done]. by apply current_render.
  - unfold intersect. destruct (sentinel i); [|done].
    by apply (current_ext i).
  - unfold typeSearch. destruct (mounted i && _); [|done].
    destruct (onSearch (props i)); by apply (current_ext i).
  - by apply current_tick.
  - destruct (mounted i) eqn:Hm; [|done]. done.
Qed.

Lemma current_run es i :
  Forall guarded es -> current i -> current (run matcher es i).
Proof.
  intros Hes. revert i. induction Hes as [|e es He _ IH]; intros i Hc; [done|].
  apply IH. by apply current_step.
Qed.

Lemma flat_map_nil {A B} (f : A -> list B) (l : list A) :
  (forall k a, l !! k = Some a -> f a = []) -> flat_map f l = [].
Proof.
  induction l as [|a l IH]; intros H; simpl; [done|].
  rewrite (H 0 a) by done. apply IH. intros k b Hk. by apply (H (S k)).
Qed.

(** X1.  As long as every render passes the guard of the observer effect, a
    trigger that comes into view while [isValidating] is true makes no
    call. *)
Theorem trigger_waits_while_validating p es entries :
  wantsObserver p <> None ->
  Forall guarded es ->
  entries <> [] ->
  isValidating (props (run matcher es (mount matcher p))) = true ->
  calls (step matcher (run matcher es (mount matcher p)) (Intersect entries))
  = calls (run matcher es (mount matcher p)).
Proof.
  intros Hp Hes Hne Hv.
  pose proof (current_run es _ Hes (current_mount p Hp)) as Hc.
  set (i := run matcher es (mount matcher p)) in *.
  cbn [step]. unfold intersect. destruct (sentinel i) as [node|] eqn:Hn; [|done].
  unfold current in Hc. destruct (mounted i); [|congruence].
  destruct Hc as [_ (o & ob & Ho & Hob & Hiv & Hrest)].
  unfold withCalls. cbn [calls]. unfold notify.
  rewrite flat_map_nil; [by rewrite app_nil_r|].
  intros k a Hk. case_bool_decide as Hin; [|done].
  destruct (decide (k = o)) as [->|Hko].
  - assert (a = ob) as -> by congruence.
    unfold callback. destruct entries as [|first rest]; [done|].
    rewrite Hiv, Hv. by rewrite andb_false_r.
  - rewrite (Hrest k a Hk Hko) in Hin. by apply not_elem_of_nil in Hin.
Qed.

(** The first render that fails the guard leaves nothing observed: the
    cleanup disconnects the one observer there is.  (It stays in
    [observerRef], which is where the failing runs start.) *)
Theorem guard_fails_inert p term i :
  mounted i = true -> current i -> wantsObserver p = None ->
  inert (store (render matcher p term i)).
Proof.
  unfold current. intros Hm Hc Hp. rewrite Hm in Hc. destruct Hc as [Hq Hs].
  unfold render. cbn [store withStore]. unfold runEffect.
  case_bool_decide as Hd.
  - exfalso. apply Hq. rewrite <- Hp. unfold deps in Hd.
    injection Hd as H1 H2 H3 _. unfold wantsObserver. by rewrite H1, H2, H3.
  - destruct (wantsObserver (props i)); [|done]. cbn [defined].
    unfold effect. rewrite Hp.
    eapply soleObserver_cleanup. by apply soleObserver_commitRefs.
Qed.

End TriggerInvariant.

Lemma trigger_waits_while_validating_witness :
  FormsList.calls
    (FormsList.step fuzzy.match_
       (FormsList.run fuzzy.match_
          [FormsList.Intersect [true];
           FormsList.Render (Samples.withIsValidating true Samples.scrolling)]
          (FormsList.mount fuzzy.match_ Samples.scrolling))
       (FormsList.Intersect [true]))
  = FormsList.calls
      (FormsList.run fuzzy.match_
         [FormsList.Intersect [true];
          FormsList.Render (Samples.withIsValidating true Samples.scrolling)]
         (FormsList.mount fuzzy.match_ Samples.scrolling)).
Proof.
  apply (trigger_waits_while_validating fuzzy.match_ Samples.scrolling
           [FormsList.Intersect [true];
            FormsList.Render (Samples.withIsValidating true Samples.scrolling)]
           [true]).
  - discriminate.
  - repeat constructor. discriminate.
  - discriminate.
  - reflexivity.
Defined.

(** * Further properties of the two components *)

(** ** The callback ref and the observers *)

Section TriggerTracking.
Import Types FormsList.
Context (matcher : string -> string -> option fuzzy.Score).

Lemma tracks_setLoadMoreRef p n node s :
  tracks p n s -> tracks p node (setLoadMoreRef node s).
Proof.
  intros (Hl & f & o & ob & Hw & Ho & Hob & Hf & Hv & Ht & Hrest).
  unfold setLoadMoreRef. rewrite Hl, Ho.
  assert (exists ob1,
            let s1 := match n with
                      | Some previous => unobserve o previous s
                      | None => s
                      end in
            observerRef s1 = Some o /\ observers s1 !! o = Some ob1
            /\ closure_loadMore ob1 = f
            /\ closure_isValidating ob1 = isValidating p
            /\ targets ob1 = []
            /\ forall o' ob', observers s1 !! o' = Some ob' -> o' <> o ->
                              targets ob' = [])
    as (ob1 & Ho1 & Hob1 & Hf1 & Hv1 & Ht1 & Hrest1).
  { destruct n as [a|].
    - eexists. cbn. rewrite list_lookup_alter_eq, Hob. cbn.
      do 4 (split; [done|]). split.
      + rewrite Ht. cbn. by rewrite Nat.eqb_refl.
      + intros o' ob' H Hne. rewrite list_lookup_alter_ne in H by done. eauto.
    - exists ob. cbn. by rewrite Ht. }
  set (s1 := match n with
             | Some previous => unobserve o previous s
             | None => s
             end) in *.
  cbn [observerRef loadMoreRef observers]. rewrite Ho1.
  destruct node as [m|].
  - split; [done|]. exists f, o. eexists. split; [done|]. split; [done|].
    cbn. rewrite list_lookup_alter_eq, Hob1. cbn.
    do 3 (split; [done|]). split.
    + rewrite Ht1. by rewrite bool_decide_eq_false_2 by apply not_elem_of_nil.
    + intros o' ob' H Hne. rewrite list_lookup_alter_ne in H by done. eauto.
  - split; [done|]. exists f, o, ob1. done.
Qed.

Lemma tracks_commitRefs p rebuilt trigger i :
  tracks p (sentinel i) (store i) ->
  tracks p (sentinel (commitRefs rebuilt trigger i))
    (store (commitRefs rebuilt trigger i)).
Proof.
  intros Ht. unfold commitRefs, attachTrigger, detachTrigger.
  destruct (sentinel i) eqn:Hs, trigger, rebuilt; cbn [store sentinel];
    rewrite ?Hs; try done;
    repeat eapply tracks_setLoadMoreRef; exact Ht.
Qed.

Lemma tracks_cleanup p n s :
  tracks p n s -> loadMoreRef (cleanup s) = n /\ inert (cleanup s).
Proof.
  intros (Hl & f & o & ob & Hw & Ho & Hob & Hf & Hv & Ht & Hrest).
  unfold cleanup. rewrite Ho. split; [done|].
  intros o' ob'. cbn. destruct (decide (o' = o)) as [->|Hne].
  - rewrite list_lookup_alter_eq, Hob. by intros [= <-].
  - rewrite list_lookup_alter_ne by done. eauto.
Qed.

Lemma tracks_effect p f n s :
  wantsObserver p = Some f -> loadMoreRef s = n -> inert s ->
  tracks p n (effect p s).
Proof.
  intros Hw Hl Hi. unfold effect. rewrite Hw. cbn [loadMoreRef]. rewrite Hl.
  set (o := length (observers s)).
  assert ((observers s ++ [mkObserver (isValidating p) f []]) !! o
          = Some (mkObserver (isValidating p) f [])) as Hnew
    by (by apply list_lookup_middle).
  assert (forall o' ob',
            (observers s ++ [mkObserver (isValidating p) f []]) !! o' = Some ob' ->
            o' <> o -> targets ob' = []) as Hold.
  { intros o' ob' H Hne. apply lookup_app_Some in H as [H|[? H]].
    - by apply Hi in H.
    - fold o in H. destruct (o' - o) eqn:E; [lia|done]. }
  destruct n as [m|].
  - split; [done|]. exists f, o. eexists. do 2 (split; [done|]).
    cbn. rewrite list_lookup_alter_eq, Hnew. cbn. do 4 (split; [done|]).
    intros o' ob' H Hne. rewrite list_lookup_alter_ne in H by done. eauto.
  - split; [done|]. exists f, o. eexists. do 2 (split; [done|]).
    split; [exact Hnew|]. done.
Qed.

Lemma tracks_runEffect q p n s :
  wantsObserver p <> None ->
  tracks q n s -> tracks p n (runEffect (Some q) p s).
Proof.
  intros Hp Ht. unfold runEffect. case_bool_decide as Hd.
  - destruct Ht as (Hl & f & o & ob & Hw & Ho & Hob & Hf & Hv & Htg & Hrest).
    split; [done|]. exists f, o, ob. unfold deps in Hd.
    injection Hd as H1 H2 H3 H4. unfold wantsObserver in *.
    rewrite <- H1, <- H2, <- H3, <- H4. done.
  - destruct (wantsObserver p) as [f|] eqn:Ep; [|done].
    pose proof Ht as (_ & g & _ & _ & -> & _). cbn [defined].
    destruct (tracks_cleanup q n s Ht) as [Hl Hi].
    by apply (tracks_effect p f).
Qed.

Lemma tracking_render p term i :
  mounted i = true -> wantsObserver p <> None ->
  tracking i -> tracking (render matcher p term i).
Proof.
  unfold tracking. intros Hm Hp. rewrite Hm. intros Ht.
  destruct (render_fields matcher p term i) as (-> & _ & _ & _ & _ & -> & _).
  rewrite Hm. unfold render.
  set (j := mkInstance p term _ _ _ _ _ _ _ _).
  set (r := negb _). set (t := hasTrigger _).
  unfold withStore. cbn [sentinel store].
  apply tracks_runEffect; [done|].
  by apply (tracks_commitRefs (props i) r t j).
Qed.

Lemma tracking_mount p : wantsObserver p <> None -> tracking (mount matcher p).
Proof.
  intros Hp. unfold tracking, mount.
  set (j := mkInstance p "" _ _ _ _ _ _ _ _). set (t := hasTrigger _).
  destruct (commitRefs_fields false t j) as (Hp1 & _ & _ & _ & _ & Hm & _).
  unfold withStore. cbn [mounted props sentinel store runEffect].
  rewrite Hm, Hp1. cbn [mounted props j].
  destruct (wantsObserver p) as [f|] eqn:Ep; [|done].
  apply (tracks_effect p f); [done| |].
  - unfold commitRefs, attachTrigger. by destruct t.
  - unfold commitRefs, attachTrigger.
    destruct t; cbn; intros o ob H; by destruct o.
Qed.

Lemma tracking_ext i j :
  mounted j = mounted i -> props j = props i -> store j = store i ->
  sentinel j = sentinel i -> tracking i -> tracking j.
Proof. unfold tracking. by intros -> -> -> ->. Qed.

Lemma tracking_step i e : guarded e -> tracking i -> tracking (step matcher i e).
Proof.
  intros Hg Hc. destruct e as [p|entries|term| |]; cbn [step].
  - destruct (mounted i) eqn:Hm; [|done]. by apply tracking_render.
  - unfold intersect. destruct (sentinel i) eqn:Hs; [|done].
    by apply (tracking_ext i).
  - unfold typeSearch. destruct (mounted i && _); [|done].
    destruct (onSearch (props i)); by apply (tracking_ext i).
  - unfold tick.
    set (cur := Lodash.tick handleSearch_wait (S (now i)) (handleSearch i)).
    set (j := mkInstance _ _ _ _ _ _ _ _ _ _).
    assert (tracking j) as Hj by (by apply (tracking_ext i)).
    destruct (match snd cur with Some t => Some t | None => _ end); [|done].
    destruct (mounted j) eqn:Hm; [|done].
    apply tracking_render; [done| |done].
    unfold tracking in Hj. rewrite Hm in Hj.
    destruct Hj as (_ & f & _ & _ & Hw & _). change (props j) with (props i).
    change (props j) with (props i) in Hw. by rewrite Hw.
  - destruct (mounted i) eqn:Hm; done.
Qed.

Lemma tracking_run es i :
  Forall guarded es -> tracking i -> tracking (run matcher es i).
Proof.
  intros Hes. revert i. induction Hes as [|e es He _ IH]; intros i Hc; [done|].
  apply IH. by apply tracking_step.
Qed.

Lemma flat_map_one {A B} (g : A -> list B) (l : list A) o a :
  l !! o = Some a ->
  (forall k b, l !! k = Some b -> k <> o -> g b = []) ->
  flat_map g l = g a.
Proof.
  revert o. induction l as [|x l IH]; intros o Ho Hrest; [done|].
  destruct o as [|o].
  - injection Ho as ->. cbn [flat_map].
    rewrite (flat_map_nil g l); [by rewrite app_nil_r|].
    intros k b Hk. by apply (Hrest (S k)).
  - cbn [flat_map]. rewrite (Hrest 0 x) by done. cbn.
    apply (IH o); [done|]. intros k b Hk Hne. apply (Hrest (S k)); [done|lia].
Qed.

(** X2.  On a run whose renders all pass the guard of the observer effect, a
    trigger in the document that comes into view while nothing is being
    validated makes exactly one call: the [loadMore] of the current
    props. *)
Theorem trigger_loads_once p es rest n :
  wantsObserver p <> None ->
  Forall guarded es ->
  mounted (run matcher es (mount matcher p)) = true ->
  sentinel (run matcher es (mount matcher p)) = Some n ->
  isValidating (props (run matcher es (mount matcher p))) = false ->
  exists f,
    loadMore (props (run matcher es (mount matcher p))) = Some f
    /\ calls (step matcher (run matcher es (mount matcher p))
               (Intersect (true :: rest)))
       = calls (run matcher es (mount matcher p)) ++ [CallLoadMore f].
Proof.
  intros Hp Hes Hm Hs Hv.
  pose proof (tracking_run es _ Hes (tracking_mount p Hp)) as Ht.
  set (i := run matcher es (mount matcher p)) in *.
  unfold tracking in Ht. rewrite Hm, Hs in Ht.
  destruct Ht as (_ & f & o & ob & Hw & Ho & Hob & Hf & Hiv & Htg & Hrest).
  exists f. split.
  { unfold wantsObserver in Hw. by destruct (_ && _). }
  cbn [step]. unfold intersect. rewrite Hs. unfold withCalls. cbn [calls].
  f_equal. unfold notify.
  rewrite (flat_map_one _ _ o ob Hob).
  - rewrite Htg, bool_decide_eq_true_2 by apply list_elem_of_here.
    unfold callback. by rewrite Hiv, Hv, Hf.
  - intros k b Hk Hne. rewrite (Hrest k b Hk Hne).
    by rewrite bool_decide_eq_false_2 by apply not_elem_of_nil.
Qed.

(** X3.  The first render that fails the guard, after renders that all passed
    it, leaves no observer observing anything, and a visibility event
    after it makes no call. *)
Theorem first_failing_render_disconnects p0 es p entries :
  wantsObserver p0 <> None ->
  Forall guarded es ->
  mounted (run matcher es (mount matcher p0)) = true ->
  wantsObserver p = None ->
  inert (store (step matcher (run matcher es (mount matcher p0)) (Render p)))
  /\ calls (step matcher
             (step matcher (run matcher es (mount matcher p0)) (Render p))
             (Intersect entries))
     = calls (run matcher es (mount matcher p0)).
Proof.
  intros Hp0 Hes Hm Hp.
  pose proof (current_run matcher es _ Hes (current_mount matcher p0 Hp0)) as Hc.
  set (i := run matcher es (mount matcher p0)) in *.
  cbn [step]. rewrite Hm.
  pose proof (guard_fails_inert matcher p (searchTerm i) i Hm Hc Hp) as Hi.
  split; [exact Hi|].
  destruct (render_fields matcher p (searchTerm i) i)
    as (_ & _ & _ & _ & _ & _ & Hcalls).
  unfold intersect. destruct (sentinel _); [|done].
  unfold withCalls. cbn [calls]. rewrite Hcalls. unfold notify.
  rewrite flat_map_nil; [by rewrite app_nil_r|].
  intros k a Hk. rewrite (Hi k a Hk).
  by rewrite bool_decide_eq_false_2 by apply not_elem_of_nil.
Qed.

(** A visibility event that reports the trigger out of view makes no call,
    in any state of the list and whichever observers observe it. *)
Theorem out_of_view_never_loads i rest :
  calls (step matcher i (Intersect (false :: rest))) = calls i.
Proof.
  cbn [step]. unfold intersect. destruct (sentinel i); [|done].
  unfold withCalls. cbn [calls]. unfold notify.
  rewrite flat_map_nil; [by rewrite app_nil_r|].
  intros k a _. by destruct (bool_decide _).
Qed.

(** X4.  The callback ref moves the observation of the observer in
    [observerRef] from the element it held before to the element it is
    called with (to none for [null]), leaves what else that observer
    observes and its closure alone, and touches no other observer; with
    no observer in [observerRef] it only records the element. *)
Theorem setLoadMoreRef_moves node s :
  loadMoreRef (setLoadMoreRef node s) = node
  /\ observerRef (setLoadMoreRef node s) = observerRef s
  /\ (observerRef s = None -> observers (setLoadMoreRef node s) = observers s)
  /\ (forall o ob,
        observerRef s = Some o -> observers s !! o = Some ob ->
        (exists ob',
           observers (setLoadMoreRef node s) !! o = Some ob'
           /\ closure_isValidating ob' = closure_isValidating ob
           /\ closure_loadMore ob' = closure_loadMore ob
           /\ forall n, In n (targets ob') <->
                        (In n (targets ob) /\ Some n <> loadMoreRef s)
                        \/ Some n = node)
        /\ forall o', o' <> o ->
             observers (setLoadMoreRef node s) !! o' = observers s !! o').
Proof.
  unfold setLoadMoreRef.
  destruct (observerRef s) as [o|] eqn:Ho.
  2:{ destruct (loadMoreRef s), node; cbn; rewrite ?Ho; cbn; by rewrite ?Ho. }
  assert (observerRef
            match loadMoreRef s with
            | Some previous => unobserve o previous s
            | None => s
            end = Some o) as Ho1 by (by destruct (loadMoreRef s)).
  cbn [observerRef loadMoreRef observers]. rewrite Ho1.
  split; [by destruct node|]. split; [by destruct node|]. split; [done|].
  intros o0 ob [= <-] Hob.
  assert (exists ob1,
            observers match loadMoreRef s with
                      | Some previous => unobserve o previous s
                      | None => s
                      end !! o = Some ob1
            /\ closure_isValidating ob1 = closure_isValidating ob
            /\ closure_loadMore ob1 = closure_loadMore ob
            /\ (forall n, In n (targets ob1) <->
                          In n (targets ob) /\ Some n <> loadMoreRef s)
            /\ forall o', o' <> o ->
                 observers match loadMoreRef s with
                           | Some previous => unobserve o previous s
                           | None => s
                           end !! o' = observers s !! o')
    as (ob1 & Hob1 & Hv1 & Hf1 & Ht1 & Hrest1).
  { destruct (loadMoreRef s) as [a|].
    - eexists. cbn. rewrite list_lookup_alter_eq, Hob. cbn.
      do 3 (split; [done|]). split.
      + intros n. cbn [targets].
        rewrite filter_In, negb_true_iff, Nat.eqb_neq.
        split; intros [? ?]; (split; [done|congruence]).
      + intros o' Hne. by rewrite list_lookup_alter_ne.
    - exists ob. do 3 (split; [done|]). split; [|done].
      intros n. split; [by intros ?|by intros [? _]]. }
  destruct node as [m|].
  - split.
    + eexists. cbn. rewrite list_lookup_alter_eq, Hob1. cbn.
      do 3 (split; [done|]). intros n. cbn [targets].
      case_bool_decide as Hin.
      * rewrite Ht1. split; [by left|]. intros [?|[= ->]]; [done|].
        apply Ht1. by apply list_elem_of_In.
      * rewrite in_app_iff, Ht1. cbn. split.
        -- intros [?|[->|[]]]; [by left|by right].
        -- intros [?|[= ->]]; [by left|right; by left].
    + intros o' Hne. cbn. rewrite list_lookup_alter_ne by done. by apply Hrest1.
  - split.
    + exists ob1. cbn. do 3 (split; [done|]). intros n. rewrite Ht1.
      split; [by left|by intros [?|?]].
    + intros o' Hne. by apply Hrest1.
Qed.

Lemma setLoadMoreRef_no_observers node s :
  observers s = [] -> observers (setLoadMoreRef node s) = [].
Proof.
  intros H. unfold setLoadMoreRef, observe, unobserve.
  destruct (loadMoreRef s), (observerRef s) eqn:E, node; cbn;
    rewrite ?E; cbn; rewrite ?H; done.
Qed.

Lemma commitRefs_no_observers rebuilt trigger i :
  observers (store i) = [] ->
  observers (store (commitRefs rebuilt trigger i)) = [].
Proof.
  intros H. unfold commitRefs, attachTrigger, detachTrigger.
  destruct (sentinel i), trigger, rebuilt; cbn [store]; try done;
    repeat apply setLoadMoreRef_no_observers; done.
Qed.

Lemma render_no_observers p term i :
  wantsObserver (props i) = None -> wantsObserver p = None ->
  observers (store i) = [] ->
  observers (store (render matcher p term i)) = [].
Proof.
  intros Hq Hp H. unfold render.
  set (j := mkInstance p term _ _ _ _ _ _ _ _).
  set (r := negb _). set (t := hasTrigger _).
  unfold withStore. cbn [store]. unfold runEffect, effect.
  rewrite Hq, Hp. cbn [defined].
  case_bool_decide; by apply (commitRefs_no_observers r t j).
Qed.

Lemma fire_no_load f args :
  Forall (fun c => forall g, c <> CallLoadMore g) (fire f args).
Proof.
  destruct args as [t|]; [|constructor]. cbn. unfold handleSearch_body.
  constructor; [done|]. destruct f; repeat constructor; done.
Qed.

Lemma tick_made i :
  exists made,
    calls (tick matcher i) = calls i ++ made
    /\ Forall (fun c => forall g, c <> CallLoadMore g) made.
Proof.
  unfold tick.
  set (cur := Lodash.tick handleSearch_wait (S (now i)) (handleSearch i)).
  set (old := map _ (retired i)).
  set (made := flat_map _ old ++ _).
  set (j := mkInstance _ _ _ _ _ _ _ _ _ _).
  assert (Forall (fun c => forall g, c <> CallLoadMore g) made) as Hmade.
  { apply Forall_app. split; [|apply fire_no_load].
    clear. induction old as [|[f [d a]] old IH]; [constructor|].
    cbn [flat_map]. apply Forall_app. split; [apply fire_no_load|done]. }
  exists made. split; [|done].
  destruct (match snd cur with Some t => Some t | None => _ end); [|done].
  destruct (mounted j); [|done].
  by destruct (render_fields matcher (props j) s j) as (_&_&_&_&_&_& ->).
Qed.

(** X5.  A list whose renders all fail the guard of the observer effect (no
    infinite scrolling, no [loadMore], or no more to load, each time) never
    builds an observer and never calls a [loadMore]. *)
Theorem never_guarded_never_observes p es :
  wantsObserver p = None ->
  Forall unguarded es ->
  observers (store (run matcher es (mount matcher p))) = []
  /\ Forall (fun c => forall g, c <> CallLoadMore g)
       (calls (run matcher es (mount matcher p))).
Proof.
  intros Hp Hes.
  assert (forall i,
            wantsObserver (props i) = None -> observers (store i) = [] ->
            Forall (fun c => forall g, c <> CallLoadMore g) (calls i) ->
            wantsObserver (props (run matcher es i)) = None
            /\ observers (store (run matcher es i)) = []
            /\ Forall (fun c => forall g, c <> CallLoadMore g)
                 (calls (run matcher es i))) as Hrun.
  { induction Hes as [|e es He _ IH]; intros i Hw Ho Hc; [done|].
    change (run matcher (e :: es) i) with (run matcher es (step matcher i e)).
    destruct e as [q|entries|term| |]; cbn [step].
    - destruct (mounted i); [|by apply IH].
      destruct (render_fields matcher q (searchTerm i) i)
        as (Hpr & _ & _ & _ & _ & _ & Hcalls).
      apply IH; [by rewrite Hpr| by apply render_no_observers|by rewrite Hcalls].
    - unfold intersect. destruct (sentinel i); [|by apply IH].
      apply IH; try done. unfold withCalls, notify. cbn [calls store].
      rewrite Ho. cbn. by rewrite app_nil_r.
    - unfold typeSearch. destruct (mounted i && _); [|by apply IH].
      destruct (onSearch (props i)); apply IH; try done.
      unfold withCalls. cbn [calls]. apply Forall_app. split; [done|].
      by repeat constructor.
    - destruct (tick_made i) as (made & Hc' & Hm').
      assert (props (tick matcher i) = props i
              /\ observers (store (tick matcher i)) = []) as [Hpr Hob].
      { unfold tick.
        set (j := mkInstance _ _ _ _ _ _ _ _ _ _).
        destruct (match snd _ with Some t => Some t | None => _ end); [|done].
        destruct (mounted j); [|done]. split.
        - by destruct (render_fields matcher (props j) s j) as (-> & _).
        - by apply render_no_observers. }
      apply IH; [by rewrite Hpr|done|]. rewrite Hc'. by apply Forall_app.
    - destruct (mounted i); apply IH; try done.
      unfold unmount. cbn [store]. rewrite Hw. cbn [defined].
      destruct (sentinel i); [by apply setLoadMoreRef_no_observers|done]. }
  unfold mount. set (j := mkInstance p "" _ _ _ _ _ _ _ _).
  destruct (commitRefs_fields false (hasTrigger (view matcher p "")) j)
    as (Hpr & _ & _ & _ & _ & _ & Hcalls).
  apply Hrun; unfold withStore; cbn [props store calls runEffect].
  - by rewrite Hpr.
  - unfold effect. rewrite Hp. by apply commitRefs_no_observers.
  - rewrite Hcalls. constructor.
Qed.

End TriggerTracking.

(** ** What the list shows *)

Section ListViewFacts.
Import Types FormsList.
Context (matcher : string -> string -> option fuzzy.Score).

Lemma tableRows_id filtered :
  map id (tableRows filtered) = map (fun a => uuid (form a)) (default [] filtered).
Proof. destruct filtered as [l|]; [|done]. cbn. by rewrite map_map. Qed.

Lemma filteredForms_submseteq onSearch term forms :
  default [] (filteredForms matcher onSearch term forms) ⊆+ default [] forms.
Proof.
  destruct (truthy term) eqn:Ht.
  - destruct onSearch as [f|].
    + unfold filteredForms. cbn. by rewrite Ht.
    + apply truthy_true in Ht. rewrite filteredForms_local by done.
      cbn [default]. rewrite sort_Permutation.
      apply sublist_submseteq, filter_sublist.
  - unfold filteredForms. rewrite Ht. cbn. by rewrite andb_false_r.
Qed.

(** X6.  In either mode and for every term, the filter returns forms of the
    result set only, none more often than it is there; so the table has
    at most one row per form of the result set, each under the uuid of
    its form. *)
Theorem rows_come_from_forms onSearch term forms :
  default [] (filteredForms matcher onSearch term forms) ⊆+ default [] forms
  /\ map id (tableRows (filteredForms matcher onSearch term forms))
     ⊆+ map (fun a => uuid (form a)) (default [] forms)
  /\ length (tableRows (filteredForms matcher onSearch term forms))
     <= length (default [] forms).
Proof.
  pose proof (filteredForms_submseteq onSearch term forms) as H.
  split; [done|]. split.
  - rewrite tableRows_id. by apply fmap_submseteq.
  - rewrite <- (length_map id), tableRows_id, length_map.
    by apply submseteq_length.
Qed.

Lemma filter_nil_iff {A} (P : A -> bool) l :
  List.filter P l = [] <-> Forall (fun a => P a = false) l.
Proof.
  induction l as [|a l IH]; cbn; [by split; [constructor|]|].
  destruct (P a) eqn:E.
  - split; [done|]. intros H. apply Forall_cons in H as [H _]. congruence.
  - rewrite IH. split; [by constructor|]. by intros [_ ?]%Forall_cons.
Qed.

Lemma rows_length filtered :
  length (tableRows filtered) = length (default [] filtered).
Proof. destruct filtered; [|done]. cbn. by rewrite length_map. Qed.

Lemma no_results_term p term :
  view matcher p term = NoSearchResults -> term <> "".
Proof.
  intros H ->. unfold view in H. cbn [truthy andb] in H.
  destruct (negb _ && _ && _) in H; [done|].
  destruct (isSearching p || false) in H; [done|].
  by destruct (noForms p && _ && _) in H.
Qed.

(** X7.  The message that no forms match the search is shown exactly when the
    list has no [onSearch], a term is committed, nothing is loading,
    validating or searching, there are forms, and the matcher accepts none
    of them.  A list with [onSearch] never shows it. *)
Theorem no_results_exactly p term :
  view matcher p term = NoSearchResults
  <-> term <> "" /\ onSearch p = None
      /\ isLoading p = false /\ isValidating p = false /\ isSearching p = false
      /\ exists l, completedForms p = Some l /\ l <> []
                   /\ Forall (fun a => matches matcher term a = false) l.
Proof.
  assert (length (tableRows (filteredForms matcher (onSearch p) term
                               (completedForms p))) = 0
          -> term <> "" -> noForms p = false ->
          onSearch p = None
          /\ exists l, completedForms p = Some l /\ l <> []
                       /\ Forall (fun a => matches matcher term a = false) l)
    as Hrows.
  { intros Hlen Ht Hn. rewrite rows_length in Hlen.
    unfold noForms in Hn. destruct (completedForms p) as [[|a l]|] eqn:Hc;
      try done.
    destruct (onSearch p) as [f|].
    - unfold filteredForms in Hlen. apply truthy_true in Ht.
      rewrite Ht in Hlen. done.
    - split; [done|]. exists (a :: l). do 2 (split; [done|]).
      rewrite filteredForms_local in Hlen by done. cbn [default] in Hlen.
      apply filter_nil_iff. apply length_zero_iff_nil.
      rewrite <- (Permutation_length
                    (sort_Permutation (byItem matcher term) _)).
      exact Hlen. }
  unfold view. split.
  - destruct (_ && _ && (isLoading p || isValidating p)); [done|].
    destruct (isSearching p || _) eqn:EB; [done|].
    destruct (noForms p && _ && _) eqn:EC; [done|].
    destruct (truthy term && _ && _ && _ && _) eqn:ED; [|done]. intros _.
    apply andb_true_iff in ED as [[[[Ht Hlen%Nat.eqb_eq]%andb_true_iff
      HL%negb_true_iff]%andb_true_iff HV%negb_true_iff]%andb_true_iff
      HS%negb_true_iff].
    apply truthy_true in Ht. rewrite HL, HV in EC. cbn in EC.
    rewrite !andb_true_r in EC.
    destruct (Hrows Hlen Ht EC) as [Ho Hl]. done.
  - intros (Ht & Ho & HL & HV & HS & l & Hc & Hne & Hall).
    rewrite HL, HV, HS, Ho, Hc. apply truthy_true in Ht as Ht'. rewrite Ht'.
    cbn [orb andb negb defined]. rewrite ?andb_false_r, !andb_true_r.
    unfold noForms. rewrite Hc. destruct l as [|a l]; [done|].
    rewrite rows_length, filteredForms_local by done.
    apply filter_nil_iff in Hall.
    change (default [] (Some (a :: l))) with (a :: l). rewrite Hall. done.
Qed.

Lemma notify_no_set node entries s :
  Forall (fun c => forall t, c <> CallSetSearchTerm t) (notify node entries s).
Proof.
  unfold notify. induction (observers s) as [|ob l IH]; [constructor|].
  cbn [flat_map]. apply Forall_app. split; [|done].
  destruct (bool_decide _); [|constructor]. unfold callback.
  destruct entries as [|[] ?]; try destruct (negb _); cbn;
    repeat constructor; done.
Qed.

(** X8.  A list that has [onSearch] from its mount on keeps its own search
    term empty whatever is typed: it never calls [setSearchTerm], its
    filter passes the forms on as they are, and it never shows the
    message that no forms match. *)
Theorem remote_list_never_filters p es :
  onSearch p <> None ->
  Forall remote es ->
  searchTerm (run matcher es (mount matcher p)) = ""
  /\ Forall (fun c => forall t, c <> CallSetSearchTerm t)
       (calls (run matcher es (mount matcher p)))
  /\ filteredForms matcher
       (onSearch (props (run matcher es (mount matcher p))))
       (searchTerm (run matcher es (mount matcher p)))
       (completedForms (props (run matcher es (mount matcher p))))
     = completedForms (props (run matcher es (mount matcher p)))
  /\ view matcher (props (run matcher es (mount matcher p)))
       (searchTerm (run matcher es (mount matcher p))) <> NoSearchResults.
Proof.
  intros Hp Hes.
  assert (forall i,
            onSearch (props i) <> None -> searchTerm i = "" ->
            Lodash.timerId (handleSearch i) = None -> quietRetired i ->
            Forall (fun c => forall t, c <> CallSetSearchTerm t) (calls i) ->
            searchTerm (run matcher es i) = ""
            /\ Forall (fun c => forall t, c <> CallSetSearchTerm t)
                 (calls (run matcher es i))) as Hrun.
  { induction Hes as [|e es He _ IH]; intros i Ho Hs Hi Hq Hc; [done|].
    change (run matcher (e :: es) i) with (run matcher es (step matcher i e)).
    destruct e as [q|entries|term| |]; cbn [step].
    - destruct (mounted i); [|by apply IH].
      destruct (render_fields matcher q (searchTerm i) i)
        as (H1 & H2 & H3 & H4 & _ & _ & H7).
      apply IH; rewrite ?H1, ?H2, ?H3, ?H7; try done.
      + by case_bool_decide.
      + unfold quietRetired. rewrite H4. case_bool_decide; [done|].
        apply Forall_app. split; [done|]. by constructor.
    - unfold intersect. destruct (sentinel i); [|by apply IH].
      apply IH; try done. unfold withCalls. cbn [calls].
      apply Forall_app. split; [done|apply notify_no_set].
    - unfold typeSearch. destruct (mounted i && _); [|by apply IH].
      destruct (onSearch (props i)) as [f|] eqn:Ef; [|done].
      apply IH; unfold withCalls; cbn [props searchTerm handleSearch calls];
        rewrite ?Ef; try done.
      apply Forall_app. split; [done|]. by repeat constructor.
    - rewrite (tick_quiet matcher i Hq), (tick_idle _ _ _ Hi).
      cbn [fst snd fire]. apply IH; cbn; try done. by rewrite app_nil_r.
    - destruct (mounted i); by apply IH. }
  destruct (Hrun (mount matcher p)) as [Hs Hc].
  - unfold mount. set (j := mkInstance p "" _ _ _ _ _ _ _ _).
    destruct (commitRefs_fields false (hasTrigger (view matcher p "")) j)
      as (H1 & _). unfold withStore. cbn [props]. by rewrite H1.
  - unfold mount. set (j := mkInstance p "" _ _ _ _ _ _ _ _).
    destruct (commitRefs_fields false (hasTrigger (view matcher p "")) j)
      as (_ & H2 & _). unfold withStore. cbn [searchTerm]. by rewrite H2.
  - unfold mount. set (j := mkInstance p "" _ _ _ _ _ _ _ _).
    destruct (commitRefs_fields false (hasTrigger (view matcher p "")) j)
      as (_ & _ & H3 & _). unfold withStore. cbn [handleSearch]. by rewrite H3.
  - unfold mount, quietRetired. set (j := mkInstance p "" _ _ _ _ _ _ _ _).
    destruct (commitRefs_fields false (hasTrigger (view matcher p "")) j)
      as (_ & _ & _ & H4 & _). unfold withStore. cbn [retired].
    rewrite H4. constructor.
  - unfold mount. set (j := mkInstance p "" _ _ _ _ _ _ _ _).
    destruct (commitRefs_fields false (hasTrigger (view matcher p "")) j)
      as (_&_&_&_&_&_& H7). unfold withStore. cbn [calls].
    rewrite H7. constructor.
  - split; [done|]. split; [done|]. rewrite Hs. split.
    + unfold filteredForms. cbn. by rewrite andb_false_r.
    + by intros H%no_results_term.
Qed.

Lemma tick_sets_only i :
  localTimers i ->
  exists made,
    calls (tick matcher i) = calls i ++ made
    /\ Forall (fun c => exists term, c = CallSetSearchTerm term) made.
Proof.
  intros [H1 H2]. unfold tick.
  set (cur := Lodash.tick handleSearch_wait (S (now i)) (handleSearch i)).
  set (old := map _ (retired i)).
  set (made := flat_map _ old ++ _).
  set (j := mkInstance _ _ _ _ _ _ _ _ _ _).
  assert (Forall (fun c => exists term, c = CallSetSearchTerm term) made)
    as Hmade.
  { apply Forall_app. split.
    - unfold old. clear -H2. induction H2 as [|[f d] r Hd _ IH]; [constructor|].
      cbn [map flat_map].
      destruct (Lodash.tick handleSearch_wait (S (now i)) d) as [d' args] eqn:E.
      pose proof (tick_lastArgs (S (now i)) d) as [_ Hb]. rewrite E in Hb.
      apply Forall_app. split; [|done].
      destruct args as [t|]; [|constructor]. rewrite Hd by (by apply Hb).
      repeat constructor. by exists t.
    - pose proof (tick_lastArgs (S (now i)) (handleSearch i)) as [_ Hb].
      fold cur in Hb. destruct (snd cur) as [t|]; [|constructor].
      cbn [fire]. rewrite H1 by (by apply Hb). repeat constructor.
      by exists t. }
  exists made. split; [|done].
  destruct (match snd cur with Some t => Some t | None => _ end); [|done].
  destruct (mounted j); [|done].
  by destruct (render_fields matcher (props j) s j) as (_&_&_&_&_&_& ->).
Qed.

(** X9.  In every state a list can reach, what an expiring debounce timer does
    is call [setSearchTerm] and nothing else: the debounced function is
    submitted to only while the list has no [onSearch], so the
    [onSearch?.(searchTerm)] in it never calls anything. *)
Theorem timers_only_set_the_term p es :
  exists made,
    calls (step matcher (run matcher es (mount matcher p)) Tick)
    = calls (run matcher es (mount matcher p)) ++ made
    /\ Forall (fun c => exists term, c = CallSetSearchTerm term) made.
Proof.
  cbn [step]. apply tick_sets_only.
  apply localTimers_run, localTimers_mount.
Qed.

(** X10.  Once a list without [onSearch] shows that no forms match, with no
    debounce timer left running, it stays so for as long as its parent
    does not render it anew: the table with its search box is not part of
    that view, so nothing typed reaches the list, and neither the passing
    of time nor the trigger changes the committed term. *)
Theorem no_results_stays i es :
  mounted i = true ->
  view matcher (props i) (searchTerm i) = NoSearchResults ->
  Lodash.timerId (handleSearch i) = None ->
  quietRetired i ->
  Forall untouched es ->
  props (run matcher es i) = props i
  /\ searchTerm (run matcher es i) = searchTerm i
  /\ view matcher (props (run matcher es i)) (searchTerm (run matcher es i))
     = NoSearchResults.
Proof.
  intros Hm Hv Hi Hq Hes.
  assert (props (run matcher es i) = props i
          /\ searchTerm (run matcher es i) = searchTerm i) as [-> ->];
    [|done].
  revert i Hm Hv Hi Hq. induction Hes as [|e es He _ IH];
    intros i Hm Hv Hi Hq; [done|].
  change (run matcher (e :: es) i) with (run matcher es (step matcher i e)).
  destruct e as [q|entries|term| |]; cbn [step]; try done.
  - unfold intersect. destruct (sentinel i); [|by apply IH].
    destruct (IH (withCalls (notify n entries (store i)) i)) as [-> ->]; done.
  - unfold typeSearch. rewrite Hv. cbn [hasTable]. rewrite andb_false_r.
    by apply IH.
  - rewrite (tick_quiet matcher i Hq), (tick_idle _ _ _ Hi).
    cbn [fst snd fire].
    set (j := mkInstance _ _ _ _ _ _ _ _ _ _).
    destruct (IH j) as [-> ->]; done.
Qed.

End ListViewFacts.

(** ** What the dashboard renders *)

Section DashboardRenders.
Import Types FormsDashboard.

Lemma dashboard_lists_props d l p :
  render d = Returned (Lists l) -> In p l ->
  exists sectionName forms_, p = listProps (result d) d sectionName forms_.
Proof.
  unfold render. destruct (isSearching d); [done|].
  destruct (_ && _); [done|].
  destruct (sections _ _) as [[|s ss]|]; try done.
  - intros [= <-] [<-|[]]. eauto.
  - intros [= <-] [<-|(s' & <- & _)%in_map_iff]; eauto.
Qed.

Lemma nothing_to_show matcher p term :
  FormsList.noForms p = true -> FormsList.isLoading p = false ->
  FormsList.isValidating p = false -> FormsList.isSearching p = false ->
  FormsList.view matcher p term = FormsList.EmptyFragment.
Proof.
  intros Hn HL HV HS. unfold FormsList.view. rewrite Hn, HL, HV, HS.
  cbn. by rewrite !andb_false_r.
Qed.

Lemma render_result d d' :
  config d = config d' -> useInfiniteScrolling d = useInfiniteScrolling d' ->
  isSearching d = isSearching d' -> result d = result d' ->
  render d = render d'.
Proof.
  intros Hc Hu Hs Hr. unfold render, listProps. by rewrite Hc, Hu, Hs, Hr.
Qed.

(** X11.  Only one of the two fetches counts in a render.  With no search query
    and infinite scrolling off, what [useInfiniteForms] returns changes
    nothing; with a search query or with infinite scrolling on, what
    [useForms] returns changes nothing. *)
Theorem unused_fetch_is_ignored cfg prop inf inf' reg reg' query searching :
  (query = "" ->
   useInfiniteScrolling (mkInputs cfg prop inf reg query searching) = false ->
   render (mkInputs cfg prop inf reg query searching)
   = render (mkInputs cfg prop inf' reg query searching))
  /\ (query <> ""
      \/ useInfiniteScrolling (mkInputs cfg prop inf reg query searching) = true ->
      render (mkInputs cfg prop inf reg query searching)
      = render (mkInputs cfg prop inf reg' query searching)).
Proof.
  split.
  - intros -> Hu. apply render_result; try done.
    unfold result. change (useInfiniteScrolling (mkInputs cfg prop inf' reg "" searching))
      with (useInfiniteScrolling (mkInputs cfg prop inf reg "" searching)).
    by rewrite Hu.
  - intros H. apply render_result; try done.
    unfold result.
    change (useInfiniteScrolling (mkInputs cfg prop inf reg' query searching))
      with (useInfiniteScrolling (mkInputs cfg prop inf reg query searching)).
    assert (truthy query
            || useInfiniteScrolling (mkInputs cfg prop inf reg query searching)
            = true) as E.
    { destruct H as [H | ->]; [|apply orb_true_r].
      destruct query; [done|done]. }
    cbn [searchQuery]. by rewrite E.
Qed.

(** X12.  The empty state ("There are no forms to display") is returned exactly
    when the dashboard is not searching, the forms are an empty array, and
    nothing is loading or validating; whatever the sections are, also
    absent ones.  Forms that are [undefined] never give it. *)
Theorem empty_state_exactly d :
  render d = Returned EmptyState
  <-> isSearching d = false /\ data (result d) = Some []
      /\ isLoading (result d) = false /\ isValidating (result d) = false.
Proof.
  unfold render. destruct (isSearching d) eqn:Hs.
  - split; [done|]. by intros [? _].
  - pose proof (empty_state_test d Hs) as T. rewrite Hs in T.
    destruct (lengthIsZero _ && _ && _ && _) eqn:E.
    + split; [|done]. intros _. split; [done|]. by apply T.
    + split.
      * by destruct (sections _ _) as [[|]|].
      * intros (_ & H). apply T in H. congruence.
Qed.

(** X13.  With infinite scrolling off (by the prop or, without one, by the
    configuration), no list of the dashboard passes the guard of the
    observer effect, and none renders a load-more trigger, whatever the
    fetch says about more results, also while a search is on. *)
Theorem scrolling_off_no_trigger d l p :
  useInfiniteScrolling d = false ->
  render d = Returned (Lists l) -> In p l ->
  FormsList.wantsObserver p = None
  /\ forall matcher term,
       FormsList.hasTrigger (FormsList.view matcher p term) = false.
Proof.
  intros Hu Hr Hin.
  destruct (dashboard_lists_props d l p Hr Hin) as (name_ & forms_ & ->).
  split.
  - unfold FormsList.wantsObserver, listProps. cbn. by rewrite Hu.
  - intros matcher term. unfold FormsList.view, listProps.
    cbn [FormsList.enableInfiniteScrolling FormsList.hasMore]. rewrite Hu.
    destruct (_ && _ && _); [done|].
    destruct (_ || _); [done|].
    destruct (_ && _ && _); [done|].
    by destruct (_ && _ && _ && _ && _).
Qed.

(** X14.  With a list of sections that is not empty, a render that gets past
    the two early returns gives one list per section, in the order of the
    configuration: each under the name of its section and over the bucket
    of that section, and all of them with the same [handleSearch] as their
    [onSearch] and the same pagination, that of the one fetch in use. *)
Theorem sections_render_one_list_each d sec secs :
  formSections (config d) = Some (sec :: secs) ->
  isSearching d = false ->
  ~ (data (result d) = Some []
     /\ isLoading (result d) = false /\ isValidating (result d) = false) ->
  exists l,
    render d = Returned (Lists l)
    /\ length l = S (length secs)
    /\ forall k s, (sec :: secs) !! k = Some s ->
         exists p,
           l !! k = Some p
           /\ FormsList.sectionName p = name s
           /\ FormsList.completedForms p
              = (List.filter (accepts s) <$> data (result d))
           /\ FormsList.onSearch p = Some handleSearch
           /\ FormsList.deps p
              = (useInfiniteScrolling d, loadMore (result d),
                 hasMore (result d), isValidating (result d))
           /\ FormsList.isLoading p = isLoading (result d)
           /\ FormsList.isSearching p = false.
Proof.
  intros Hs Hq Hne. rewrite <- empty_state_test in Hne by done.
  apply not_true_is_false in Hne.
  eexists. unfold render, sections. rewrite Hs, Hne, Hq.
  split; [reflexivity|]. split; [by rewrite !length_map|].
  intros k s Hk. eexists. split.
  { repeat match goal with
           | |- context [map ?f ?x] => change (map f x) with (f <$> x)
           end.
    rewrite !list_lookup_fmap, Hk. reflexivity. }
  cbn. rewrite Hq. by destruct (data (result d)).
Qed.

(** X15.  With nothing loading or validating, a list of the dashboard that got
    no forms shows nothing at all, whatever is typed: no table, no
    heading, no message.  So the list of a section none of whose forms is
    in the result set is hidden; and when the forms are [undefined], as
    after a fetch that failed, every list is blank and the error is not
    shown. *)
Theorem idle_dashboard_hides_empty_lists d l :
  render d = Returned (Lists l) ->
  isLoading (result d) = false -> isValidating (result d) = false ->
  (forall p, In p l -> FormsList.noForms p = true ->
     forall matcher term,
       FormsList.view matcher p term = FormsList.EmptyFragment)
  /\ (data (result d) = None ->
      l <> []
      /\ forall p, In p l ->
           forall matcher term,
             FormsList.view matcher p term = FormsList.EmptyFragment).
Proof.
  intros Hr HL HV.
  assert (isSearching d = false) as Hs.
  { unfold render in Hr. by destruct (isSearching d). }
  assert (forall p, In p l -> FormsList.noForms p = true ->
            forall matcher term,
              FormsList.view matcher p term = FormsList.EmptyFragment) as Hblank.
  { intros p Hin Hn matcher term.
    destruct (dashboard_lists_props d l p Hr Hin) as (name_ & forms_ & ->).
    by apply nothing_to_show. }
  split; [done|]. intros Hd. split.
  - unfold render in Hr. rewrite Hs in Hr. destruct (_ && _); [done|].
    destruct (sections _ _) as [[|s ss]|]; try done; by injection Hr as <-.
  - intros p Hin. apply Hblank; [done|].
    unfold render, sections in Hr. rewrite Hs, Hd in Hr.
    destruct (_ && _); [done|].
    destruct (formSections _) as [[|s ss]|]; try done; cbn in Hr.
    + injection Hr as <-. by destruct Hin as [<-|[]].
    + injection Hr as <-.
      destruct Hin as [<-|(s' & <- & (? & <- & _)%in_map_iff)%in_map_iff]; done.
Qed.

End DashboardRenders.

(** ** The debounced search after any history *)

Section DebounceAnyHistory.
Import Lodash.
Context (wait : nat) (wait_pos : 0 < wait).

Lemma paced_step start t e : paced wait start t -> paced wait start (step wait t e).
Proof using wait_pos.
  intros Hp. destruct e as [term|].
  - right. exists term, (now t). split.
    + apply debounced_pending; [done|].
      destruct Hp as [[H _]|(term' & since & H & _)]; [by left|right; eauto].
    + destruct Hp as [[_ H]|(term' & since & (_ & _ & due & _ & ? & _) & H)];
        simpl; lia.
  - destruct Hp as [[Hi Hn]|(term & since & Hp & Hn)].
    + left. simpl. rewrite tick_idle by done. simpl. split; [done|lia].
    + pose proof Hp as (_ & _ & due & _ & ? & ? & ?).
      destruct (tick_pending wait wait_pos _ _ _ _ Hp) as [Hwait Hfire].
      destruct (decide (S (now t) < since + wait)) as [Hlt|Hge].
      * destruct (Hwait Hlt) as (d' & Hd & Hp'). right. exists term, since.
        simpl. rewrite Hd. done.
      * left. simpl. rewrite Hfire by lia. simpl. split; [done|].
        rewrite length_app. simpl. lia.
Qed.

Lemma paced_run start es t : paced wait start t -> paced wait start (run wait es t).
Proof using wait_pos.
  revert t. induction es as [|e es IH]; intros t Hp; [done|].
  apply IH, paced_step, Hp.
Qed.

Lemma paced_start start : paced wait start (mkTimeline start debounce []).
Proof using Type. clear wait_pos. left. simpl. split; [done|lia]. Qed.

Lemma paced_now start t : paced wait start t -> start + wait * length (invoked t) <= now t.
Proof using Type.
  clear wait_pos.
  intros [[_ Hn]|(term & since & (_ & _ & due & _ & Hs & _) & Hn)]; lia.
Qed.

Lemma settles start es term quiet :
  wait <= quiet ->
  invoked (run wait (es ++ Submit term :: repeat Tick quiet)
             (mkTimeline start debounce []))
  = invoked (run wait es (mkTimeline start debounce [])) ++ [term].
Proof using wait_pos.
  intros Hq. rewrite run_app.
  pose proof (paced_run start es _ (paced_start start)) as Hp.
  set (t := run wait es _) in *.
  change (run wait (Submit term :: repeat Tick quiet) t)
    with (run wait (repeat Tick quiet) (step wait t (Submit term))).
  rewrite (run_quiet wait wait_pos quiet _ term).
  - assert ((quiet <? wait) = false) as -> by (apply Nat.ltb_ge; lia). done.
  - simpl. apply debounced_pending; [done|].
    destruct Hp as [[H _]|(term' & since & H & _)]; [by left|right; eauto].
Qed.

End DebounceAnyHistory.

Lemma dashboard_wait_pos : 0 < FormsDashboard.handleSearch_wait.
Proof. unfold FormsDashboard.handleSearch_wait. lia. Qed.

(** X16.  Whatever is typed and whenever, the debounced [handleSearch] of the
    dashboard has run at most once in each 500 milliseconds that have
    passed since it was made: the search query of the fetch, which only
    [handleSearch] sets, changes no more often than that. *)
Theorem search_query_is_paced es start :
  start
  + FormsDashboard.handleSearch_wait
    * length (Lodash.invoked
                (Lodash.run FormsDashboard.handleSearch_wait es
                   (Lodash.mkTimeline start Lodash.debounce [])))
  <= Lodash.now
       (Lodash.run FormsDashboard.handleSearch_wait es
          (Lodash.mkTimeline start Lodash.debounce [])).
Proof.
  apply paced_now, (paced_run _ dashboard_wait_pos), paced_start.
Qed.

(** X17.  After any history of typing and waiting, a term followed by at least
    500 milliseconds without another is handed on: the updates of the
    dashboard are those made before, then searching set and the query set
    to that term, and nothing after. *)
Theorem search_settles_on_last_term es term quiet start :
  500 <= quiet ->
  flat_map FormsDashboard.handleSearch_body
    (Lodash.invoked
       (Lodash.run FormsDashboard.handleSearch_wait
          (es ++ Lodash.Submit term :: repeat Lodash.Tick quiet)
          (Lodash.mkTimeline start Lodash.debounce [])))
  = flat_map FormsDashboard.handleSearch_body
      (Lodash.invoked
         (Lodash.run FormsDashboard.handleSearch_wait es
            (Lodash.mkTimeline start Lodash.debounce [])))
    ++ [FormsDashboard.SetIsSearching true; FormsDashboard.SetSearchQuery term].
Proof.
  intros Hq. rewrite (settles _ dashboard_wait_pos) by done.
  by rewrite flat_map_app.
Qed.

(** ** The searching state of the dashboard *)

Section DashboardSearching.
Import Types FormsDashboard.

Lemma settle_isSearching d : isSearching (settle d) = isSearching d && busy d.
Proof.
  unfold settle, resetSearching, busy.
  destruct (isSearching d) eqn:Hs, (isValidating (result d)),
    (isLoading (result d)); cbn; by rewrite ?Hs.
Qed.

Lemma settle_rest d :
  config (settle d) = config d
  /\ enableInfiniteScrolling_prop (settle d) = enableInfiniteScrolling_prop d
  /\ searchQuery (settle d) = searchQuery d.
Proof.
  unfold settle, resetSearching. by destruct (_ && _ && _).
Qed.

Lemma busy_fetched infinite regular d d' :
  config d = config d' ->
  enableInfiniteScrolling_prop d = enableInfiniteScrolling_prop d' ->
  searchQuery d = searchQuery d' ->
  busy (fetched infinite regular d) = busy (fetched infinite regular d').
Proof.
  intros Hc Hp Hq. unfold busy, result, useInfiniteScrolling, fetched. cbn.
  by rewrite Hc, Hp, Hq.
Qed.

Lemma forallb_eq {A} (f g : A -> bool) l :
  (forall x, f x = g x) -> forallb f l = forallb g l.
Proof. intros H. induction l as [|x l IH]; [done|]. cbn. by rewrite H, IH. Qed.

Lemma fetches_isSearching fs d :
  isSearching (foldl react d (map (fun '(inf, reg) => Fetched inf reg) fs))
  = isSearching d
    && forallb (fun '(inf, reg) => busy (fetched inf reg d)) fs.
Proof.
  revert d. induction fs as [|[inf reg] fs IH]; intros d.
  - cbn. by rewrite andb_true_r.
  - cbn [map foldl forallb]. rewrite IH. cbn [react].
    rewrite settle_isSearching. cbn [fetched isSearching].
    rewrite <- andb_assoc. f_equal. f_equal.
    destruct (settle_rest (fetched inf reg d)) as (Hc & Hp & Hq).
    apply forallb_eq. intros [inf' reg']. by apply busy_fetched.
Qed.

(** X18.  The searching skeleton lasts as long as the fetch is busy, and no
    longer.  From the render in which the debounced [handleSearch] set a
    query, the dashboard is searching, and so returns the skeleton instead
    of its lists, exactly while every render since has seen the fetch in
    use for that query validating or loading; the first render that sees
    it idle ends the searching, and no later fetch brings it back. *)
Theorem searching_lasts_while_fetch_busy d query inf reg fs :
  let seen '(inf, reg) :=
    busy (fetched inf reg (foldl setState d (handleSearch_body query))) in
  let d' :=
    foldl react d
      (Searched query inf reg :: map (fun '(inf, reg) => Fetched inf reg) fs) in
  isSearching d' = forallb seen ((inf, reg) :: fs)
  /\ (render d' = Returned SearchingSkeleton
      <-> forallb seen ((inf, reg) :: fs) = true)
  /\ searchQuery d' = query.
Proof.
  intros seen d'. subst d'. cbn [foldl].
  set (d1 := foldl setState d (handleSearch_body query)).
  assert (isSearching
            (foldl react (react d (Searched query inf reg))
               (map (fun '(inf, reg) => Fetched inf reg) fs))
          = forallb seen ((inf, reg) :: fs)) as Hs.
  { rewrite fetches_isSearching. cbn [react forallb].
    rewrite settle_isSearching. fold d1. cbn [fetched isSearching].
    change (isSearching d1) with true. cbn [andb]. f_equal.
    destruct (settle_rest (fetched inf reg d1)) as (Hc & Hp & Hq).
    apply forallb_eq. intros [inf' reg']. by apply busy_fetched. }
  split; [done|]. split.
  - rewrite <- Hs. unfold render.
    destruct (isSearching _); [done|]. split; [|done].
    destruct (_ && _); [done|]. by destruct (sections _ _) as [[|]|].
  - clear Hs. cbn [react]. fold d1.
    assert (forall fs d0, searchQuery
              (foldl react d0 (map (fun '(inf, reg) => Fetched inf reg) fs))
            = searchQuery d0) as Hq.
    { clear. induction fs as [|[i r] fs IH]; intros d0; [done|].
      cbn [map foldl]. rewrite IH. cbn [react].
      by destruct (settle_rest (fetched i r d0)) as (_ & _ & ->). }
    rewrite Hq. by destruct (settle_rest (fetched inf reg d1)) as (_ & _ & ->).
Qed.

End DashboardSearching.

(** ** The further properties on sample runs *)

Lemma trigger_loads_once_witness :
  exists f,
    FormsList.loadMore
      (FormsList.props
         (FormsList.run fuzzy.match_
            [FormsList.Render (Samples.withIsValidating true Samples.scrolling);
             FormsList.Render Samples.scrolling]
            (FormsList.mount fuzzy.match_ Samples.scrolling))) = Some f
    /\ FormsList.calls
         (FormsList.step fuzzy.match_
            (FormsList.run fuzzy.match_
               [FormsList.Render (Samples.withIsValidating true Samples.scrolling);
                FormsList.Render Samples.scrolling]
               (FormsList.mount fuzzy.match_ Samples.scrolling))
            (FormsList.Intersect [true]))
       = FormsList.calls
           (FormsList.run fuzzy.match_
              [FormsList.Render (Samples.withIsValidating true Samples.scrolling);
               FormsList.Render Samples.scrolling]
              (FormsList.mount fuzzy.match_ Samples.scrolling))
         ++ [FormsList.CallLoadMore f].
Proof.
  apply (trigger_loads_once fuzzy.match_ Samples.scrolling
           [FormsList.Render (Samples.withIsValidating true Samples.scrolling);
            FormsList.Render Samples.scrolling] [] 0).
  - discriminate.
  - repeat constructor; discriminate.
  - reflexivity.
  - reflexivity.
  - reflexivity.
Defined.

Lemma first_failing_render_disconnects_witness :
  FormsList.inert
    (FormsList.store
       (FormsList.step fuzzy.match_
          (FormsList.run fuzzy.match_ [FormsList.Intersect [true]]
             (FormsList.mount fuzzy.match_ Samples.scrolling))
          (FormsList.Render (Samples.withHasMore false Samples.scrolling))))
  /\ FormsList.calls
       (FormsList.step fuzzy.match_
          (FormsList.step fuzzy.match_
             (FormsList.run fuzzy.match_ [FormsList.Intersect [true]]
                (FormsList.mount fuzzy.match_ Samples.scrolling))
             (FormsList.Render (Samples.withHasMore false Samples.scrolling)))
          (FormsList.Intersect [true]))
     = FormsList.calls
         (FormsList.run fuzzy.match_ [FormsList.Intersect [true]]
            (FormsList.mount fuzzy.match_ Samples.scrolling)).
Proof.
  apply (first_failing_render_disconnects fuzzy.match_ Samples.scrolling
           [FormsList.Intersect [true]]
           (Samples.withHasMore false Samples.scrolling) [true]).
  - discriminate.
  - repeat constructor.
  - reflexivity.
  - reflexivity.
Defined.

Lemma never_guarded_never_observes_witness :
  FormsList.observers
    (FormsList.store
       (FormsList.run fuzzy.match_
          [FormsList.Intersect [true];
           FormsList.Render (Samples.withHasMore false Samples.scrolling);
           FormsList.TypeSearch "v"; FormsList.Tick]
          (FormsList.mount fuzzy.match_
             (Samples.withLoadMore None Samples.scrolling)))) = []
  /\ Forall (fun c => forall g, c <> FormsList.CallLoadMore g)
       (FormsList.calls
          (FormsList.run fuzzy.match_
             [FormsList.Intersect [true];
              FormsList.Render (Samples.withHasMore false Samples.scrolling);
              FormsList.TypeSearch "v"; FormsList.Tick]
             (FormsList.mount fuzzy.match_
                (Samples.withLoadMore None Samples.scrolling)))).
Proof.
  apply (never_guarded_never_observes fuzzy.match_
           (Samples.withLoadMore None Samples.scrolling)
           [FormsList.Intersect [true];
            FormsList.Render (Samples.withHasMore false Samples.scrolling);
            FormsList.TypeSearch "v"; FormsList.Tick]).
  - reflexivity.
  - repeat constructor.
Defined.

Lemma remote_list_never_filters_witness :
  FormsList.searchTerm
    (FormsList.run fuzzy.match_
       [FormsList.TypeSearch "zzz"; FormsList.Tick;
        FormsList.Render Samples.remoteList]
       (FormsList.mount fuzzy.match_ Samples.remoteList)) = ""
  /\ Forall (fun c => forall t, c <> FormsList.CallSetSearchTerm t)
       (FormsList.calls
          (FormsList.run fuzzy.match_
             [FormsList.TypeSearch "zzz"; FormsList.Tick;
              FormsList.Render Samples.remoteList]
             (FormsList.mount fuzzy.match_ Samples.remoteList))).
Proof.
  pose proof (remote_list_never_filters fuzzy.match_ Samples.remoteList
                [FormsList.TypeSearch "zzz"; FormsList.Tick;
                 FormsList.Render Samples.remoteList]) as H.
  destruct H as (H1 & H2 & _).
  - discriminate.
  - repeat constructor; discriminate.
  - split; [exact H1|exact H2].
Defined.

Lemma no_results_stays_witness :
  FormsList.view fuzzy.match_
    (FormsList.props
       (FormsList.run fuzzy.match_
          [FormsList.TypeSearch "vit"; FormsList.Tick; FormsList.Intersect [true]]
          (FormsList.run fuzzy.match_
             (FormsList.typing "zzz" [] ++ repeat FormsList.Tick 500)
             (FormsList.mount fuzzy.match_
                (Samples.withHasMore false Samples.scrolling)))))
    (FormsList.searchTerm
       (FormsList.run fuzzy.match_
          [FormsList.TypeSearch "vit"; FormsList.Tick; FormsList.Intersect [true]]
          (FormsList.run fuzzy.match_
             (FormsList.typing "zzz" [] ++ repeat FormsList.Tick 500)
             (FormsList.mount fuzzy.match_
                (Samples.withHasMore false Samples.scrolling)))))
  = FormsList.NoSearchResults.
Proof.
  apply (no_results_stays fuzzy.match_
           (FormsList.run fuzzy.match_
              (FormsList.typing "zzz" [] ++ repeat FormsList.Tick 500)
              (FormsList.mount fuzzy.match_
                 (Samples.withHasMore false Samples.scrolling)))
           [FormsList.TypeSearch "vit"; FormsList.Tick; FormsList.Intersect [true]]).
  - vm_compute. reflexivity.
  - vm_compute. reflexivity.
  - vm_compute. reflexivity.
  - red. vm_compute. constructor.
  - repeat constructor.
Defined.

Lemma unused_fetch_is_ignored_witness :
  FormsDashboard.render
    (Samples.idle (Some Samples.twoSections) [Samples.vitals; Samples.covid])
  = FormsDashboard.render
      (FormsDashboard.mkInputs
         (FormsDashboard.mkConfig (Some Samples.twoSections) false) None
         Samples.firstPage
         (FormsDashboard.mkRegularResult
            (Some [Samples.vitals; Samples.covid])
            (Some [Samples.vitals; Samples.covid]) false false)
         "" false).
Proof.
  apply (proj1 (unused_fetch_is_ignored
                  (FormsDashboard.mkConfig (Some Samples.twoSections) false) None
                  Samples.nothingFetched Samples.firstPage
                  (FormsDashboard.mkRegularResult
                     (Some [Samples.vitals; Samples.covid])
                     (Some [Samples.vitals; Samples.covid]) false false)
                  (FormsDashboard.mkRegularResult None None false false)
                  "" false)).
  - reflexivity.
  - reflexivity.
Defined.

Lemma scrolling_off_no_trigger_witness :
  FormsList.wantsObserver
    (FormsDashboard.listProps Samples.firstPage Samples.searchedWithoutScrolling
       "forms" (Some [Samples.vitals; Samples.vit])) = None
  /\ forall matcher term,
       FormsList.hasTrigger
         (FormsList.view matcher
            (FormsDashboard.listProps Samples.firstPage
               Samples.searchedWithoutScrolling "forms"
               (Some [Samples.vitals; Samples.vit])) term) = false.
Proof.
  apply (scrolling_off_no_trigger Samples.searchedWithoutScrolling
           [FormsDashboard.listProps Samples.firstPage
              Samples.searchedWithoutScrolling "forms"
              (Some [Samples.vitals; Samples.vit])]).
  - reflexivity.
  - reflexivity.
  - left. reflexivity.
Defined.

Lemma sections_render_one_list_each_witness :
  exists l,
    FormsDashboard.render
      (Samples.idle (Some Samples.twoSections)
         [Samples.vitals; Samples.visitNote; Samples.covid])
    = FormsDashboard.Returned (FormsDashboard.Lists l)
    /\ length l = 2.
Proof.
  destruct (sections_render_one_list_each
              (Samples.idle (Some Samples.twoSections)
                 [Samples.vitals; Samples.visitNote; Samples.covid])
              (FormsDashboard.mkFormSection "S1" ["uuid-vitals"])
              [FormsDashboard.mkFormSection "S2" ["note"; "Vitals"]])
    as (l & Hr & Hl & _).
  - reflexivity.
  - reflexivity.
  - intros [H _]. discriminate H.
  - exists l. split; [exact Hr|exact Hl].
Defined.

Lemma idle_dashboard_hides_empty_lists_witness :
  FormsList.view fuzzy.match_
    (FormsDashboard.listProps
       (FormsDashboard.result
          (Samples.idle (Some Samples.twoSections) [Samples.covid]))
       (Samples.idle (Some Samples.twoSections) [Samples.covid])
       "S2" (Some [])) "vit"
  = FormsList.EmptyFragment.
Proof.
  refine (proj1 (idle_dashboard_hides_empty_lists
                   (Samples.idle (Some Samples.twoSections) [Samples.covid])
                   [FormsDashboard.listProps
                      (FormsDashboard.result
                         (Samples.idle (Some Samples.twoSections) [Samples.covid]))
                      (Samples.idle (Some Samples.twoSections) [Samples.covid])
                      "S1" (Some []);
                    FormsDashboard.listProps
                      (FormsDashboard.result
                         (Samples.idle (Some Samples.twoSections) [Samples.covid]))
                      (Samples.idle (Some Samples.twoSections) [Samples.covid])
                      "S2" (Some [])]
                   eq_refl eq_refl eq_refl) _ _ _ fuzzy.match_ "vit").
  - right. left. reflexivity.
  - reflexivity.
Defined.

Lemma search_settles_on_last_term_witness :
  flat_map FormsDashboard.handleSearch_body
    (Lodash.invoked
       (Lodash.run FormsDashboard.handleSearch_wait
          ([Lodash.Submit "v"; Lodash.Tick; Lodash.Submit "vi"]
             ++ Lodash.Submit "vit" :: repeat Lodash.Tick 500)
          (Lodash.mkTimeline 0 Lodash.debounce [])))
  = flat_map FormsDashboard.handleSearch_body
      (Lodash.invoked
         (Lodash.run FormsDashboard.handleSearch_wait
            [Lodash.Submit "v"; Lodash.Tick; Lodash.Submit "vi"]
            (Lodash.mkTimeline 0 Lodash.debounce [])))
    ++ [FormsDashboard.SetIsSearching true; FormsDashboard.SetSearchQuery "vit"].
Proof.
  apply (search_settles_on_last_term
           [Lodash.Submit "v"; Lodash.Tick; Lodash.Submit "vi"] "vit" 500 0).
  lia.
Defined.

(** ** A burst of submissions after any history *)

Section BurstFacts.
Import Lodash.
Context (wait : nat) (wait_pos : 0 < wait).




End BurstFacts.

(** ** Typing into the search box of a list of the dashboard *)

Section DashboardSearch.
Import Types FormsDashboard.
Context (matcher : string -> string -> option fuzzy.Score).





End DashboardSearch.

(** ** The debounced search, from the search box to the commit *)



(** The same typing into the list of the dashboard, computed: each term
    is handed to [handleSearch] as it is typed; the dashboard has made no
    update after 499 quiet milliseconds, and after 500 it has set
    searching and the final term as its query. *)
Example dashboard_search_computed :
  FormsDashboard.updates
    (foldl (FormsDashboard.happen fuzzy.match_)
       (FormsDashboard.mkScreen
          (FormsList.mount fuzzy.match_ Samples.dashboardList)
          (Lodash.mkTimeline 0 Lodash.debounce []))
       (FormsList.typing "v" [(120, "vi"); (499, "vit")]
          ++ repeat FormsList.Tick 499)) = []
  /\ FormsDashboard.updates
       (foldl (FormsDashboard.happen fuzzy.match_)
          (FormsDashboard.mkScreen
             (FormsList.mount fuzzy.match_ Samples.dashboardList)
             (Lodash.mkTimeline 0 Lodash.debounce []))
          (FormsList.typing "v" [(120, "vi"); (499, "vit")]
             ++ repeat FormsList.Tick 500))
     = [FormsDashboard.SetIsSearching true; FormsDashboard.SetSearchQuery "vit"]
  /\ FormsList.calls
       (FormsDashboard.shown
          (foldl (FormsDashboard.happen fuzzy.match_)
             (FormsDashboard.mkScreen
                (FormsList.mount fuzzy.match_ Samples.dashboardList)
                (Lodash.mkTimeline 0 Lodash.debounce []))
             (FormsList.typing "v" [(120, "vi"); (499, "vit")]
                ++ repeat FormsList.Tick 500)))
     = [FormsList.CallOnSearch FormsDashboard.handleSearch "v";
        FormsList.CallOnSearch FormsDashboard.handleSearch "vi";
        FormsList.CallOnSearch FormsDashboard.handleSearch "vit"].
Proof. repeat split; vm_compute; reflexivity. Qed.
